(** * Lineage clean-up pipeline of the OpenMetadata catalog

    A shallow embedding of [dag_om.py] (the Airflow DAG) and of
    [deletarlinhagem.py] (the stand-alone script), and the properties of
    the four stages: schema collection, table collection, lineage
    extraction and lineage deletion.

    Modelling conventions.
    - Python values that the code tests for truthiness (ids, cursors) are
      [pyval]: [None] or a string.  JSON objects are records whose optional
      keys are [option] fields; the keys the code reads with [obj['k']] on
      catalog entities are plain fields (the catalog always sends them).
    - Strings are [string]s of 8-bit characters (the UTF-8 bytes of the
      Python string); [lower] maps the letters [A]..[Z] only, which decides
      the test ['vw' in s.lower()] exactly, since no other character
      lower-cases to [v] or [w].
    - The catalog is an oracle [server]: the reply to a request may depend
      on every request sent before it.  The requests sent so far, the
      module-level set [processed_lineage_pairs] and the objects uploaded
      by stage 2 form the [world] that the code mutates.
    - Code runs in the monad [Py]: it returns a value, raises an exception,
      or exhausts the fuel given to a [while True] loop.  Credentials and
      the artifact store are outside the model: a stage takes the artifact
      it reads as an argument and returns the one it writes.
    - The functions [get_data], [extract_fully_qualified_names],
      [fetch_schemas], [get_lineage_by_id] and [exclude_lineage] and the
      body of the extraction loop ([processar_item] in the DAG) read the
      same in both files and are embedded once; [create_table_files] is the
      DAG's (the script writes the same content to local files).  The two
      extraction drivers and the two [delete_lineage] functions live in
      the modules [dag_om] and [deletarlinhagem]. *)

From Stdlib Require Import ZArith Ascii.
From stdpp Require Import gmap strings list.

(** ** Python values *)

Inductive pyval :=
  | PyNone
  | PyStr (s : string).

Global Instance pyval_eq_dec : EqDecision pyval.
Proof. solve_decision. Defined.

Global Instance pyval_countable : Countable pyval.
Proof.
  refine (inj_countable'
            (fun v => match v with PyNone => None | PyStr s => Some s end)
            (fun o => match o with None => PyNone | Some s => PyStr s end) _).
  by intros [].
Defined.

(** [if v:] *)
Definition truthy (v : pyval) : bool :=
  match v with
  | PyNone => false
  | PyStr s => negb (String.eqb s "")
  end.

(** [d.get(k)] on an optional key *)
Definition get (field : option pyval) : pyval := default PyNone field.

(** ** JSON documents of the catalog *)

(** An item of a listing page, and the record stage 2 keeps of it. *)
Record entity := {
  entity_id : pyval;              (* ['id'] *)
  fullyQualifiedName : string;
  href : string;
  tableType : string
}.

Record paging_info := {
  paging_after : option pyval     (* ['after' in paging_info] *)
}.

Record page := {
  data : list entity;
  paging : option paging_info     (* ['paging' in json_data] *)
}.

Record node := {
  node_fullyQualifiedName : option string
}.

Record edge := {
  fromEntity : option pyval;
  toEntity : option pyval;
  fromEntityFullyQualifiedName : option string;
  toEntityFullyQualifiedName : option string;
  lineageDetails : option string
}.

Record lineage := {
  lineage_entity : entity;
  nodes : option (list node);
  downstreamEdges : option (list edge);
  upstreamEdges : option (list edge)
}.

Inductive json :=
  | JNull                         (* a falsy document: [null], [{}] *)
  | JPage (p : page)
  | JLineage (g : lineage).

(** ** The catalog HTTP API *)

Inductive url :=
  | databaseSchemas_url
  | tables_url (databaseSchema : string)
  | lineage_url (table_id : pyval)
  | lineage_edge_url (from_id to_id : pyval).

Inductive request :=
  | GET (u : url) (params : option pyval)
  | DELETE (u : url).

Record response := {
  status_code : Z;
  response_json : json            (* [response.json()] *)
}.

Inductive reply :=
  | Response (r : response)
  | ConnectionError.              (* the transport raises *)

(** The reply to a request, given the requests already sent. *)
Definition server := list request -> request -> reply.

Record world := {
  requests : list request;
  processed_lineage_pairs : gset (pyval * pyval);
  uploads : list (string * list entity)
}.

Definition fresh : world :=
  {| requests := []; processed_lineage_pairs := ∅; uploads := [] |}.

(** The world after [r] was sent. *)
Definition sent (r : request) (w : world) : world :=
  {| requests := requests w ++ [r];
     processed_lineage_pairs := processed_lineage_pairs w;
     uploads := uploads w |}.

(** The world after [pair] was added to [processed_lineage_pairs]. *)
Definition marked (pair : pyval * pyval) (w : world) : world :=
  {| requests := requests w;
     processed_lineage_pairs := {[ pair ]} ∪ processed_lineage_pairs w;
     uploads := uploads w |}.

(** The world after [content] was uploaded as [object_name]. *)
Definition uploaded (object_name : string) (content : list entity) (w : world)
  : world :=
  {| requests := requests w;
     processed_lineage_pairs := processed_lineage_pairs w;
     uploads := uploads w ++ [(object_name, content)] |}.

(** ** The monad of Python code *)

Inductive exn :=
  | RequestException
  | StatusException (status : Z)
  | KeyError (key : string).

Inductive outcome (A : Type) :=
  | Return (a : A)
  | Raise (e : exn)
  | OutOfFuel.
Arguments Return {A} a.
Arguments Raise {A} e.
Arguments OutOfFuel {A}.

Definition Py (A : Type) : Type := world -> outcome A * world.

Definition ret {A} (a : A) : Py A := fun w => (Return a, w).

Definition raise {A} (e : exn) : Py A := fun w => (Raise e, w).

Definition out_of_fuel {A} : Py A := fun w => (OutOfFuel, w).

Definition bind {A B} (m : Py A) (k : A -> Py B) : Py B :=
  fun w =>
    match m w with
    | (Return a, w') => k a w'
    | (Raise e, w') => (Raise e, w')
    | (OutOfFuel, w') => (OutOfFuel, w')
    end.

Notation "'let*' x ':=' m 'in' k" := (bind m (fun x => k))
  (at level 10, x name, m at level 100, k at level 200).

(** [try: m  except Exception: handler] *)
Definition try_except {A} (m : Py A) (handler : exn -> Py A) : Py A :=
  fun w =>
    match m w with
    | (Raise e, w') => handler e w'
    | r => r
    end.

(** [for x in xs: s = body x s] *)
Fixpoint for_each {A S} (xs : list A) (body : A -> S -> Py S) (s : S) : Py S :=
  match xs with
  | [] => ret s
  | x :: xs' => let* s' := body x s in for_each xs' body s'
  end.

Section Catalog.

Variable srv : server.

(** [requests.get] / [requests.delete]: the request is sent, then either a
    response comes back or the transport raises. *)
Definition send (r : request) : Py response :=
  fun w =>
    match srv (requests w) r with
    | Response response => (Return response, sent r w)
    | ConnectionError => (Raise RequestException, sent r w)
    end.

(** ** Stage 1: schemas *)

(** [{'after': after} if after else {}] *)
Definition cursor_params (after : pyval) : option pyval :=
  if truthy after then Some after else None.

Definition get_data (u : url) (after : pyval) : Py json :=
  let params := cursor_params after in
  let* response := send (GET u params) in
  if (status_code response =? 200)%Z
  then ret (response_json response)
  else raise (StatusException (status_code response)).

Definition extract_fully_qualified_names (json_data : json) : Py (list string) :=
  match json_data with
  | JPage p => ret (map fullyQualifiedName (data p))
  | _ => raise (KeyError "data")
  end.

(** [response_data['paging']] *)
Definition get_paging (json_data : json) : Py paging_info :=
  match json_data with
  | JPage {| paging := Some paging_info |} => ret paging_info
  | _ => raise (KeyError "paging")
  end.

Fixpoint fetch_schemas_loop (fuel : nat) (after : pyval) (result : list string)
  : Py (list string) :=
  match fuel with
  | O => out_of_fuel
  | S fuel' =>
      let* response_data := get_data databaseSchemas_url after in
      let* current_data := extract_fully_qualified_names response_data in
      let result := result ++ current_data in
      let* paging_info := get_paging response_data in
      match paging_after paging_info with
      | Some after => fetch_schemas_loop fuel' after result
      | None => ret result
      end
  end.

(** The list written to [schemas.json] under the key ['data']. *)
Definition fetch_schemas (fuel : nat) : Py (list string) :=
  fetch_schemas_loop fuel PyNone [].

(** ** Stage 2: tables *)

(** [hook.upload(object_name, data)] *)
Definition upload (object_name : string) (content : list entity) : Py unit :=
  fun w => (Return tt, uploaded object_name content w).

(** The [while True] loop of one schema.  The projection of an item to the
    keys [id], [fullyQualifiedName], [href] and [tableType] is the identity
    on [entity]. *)
Fixpoint create_table_files_loop (fuel : nat) (u : url) (after : pyval)
    (response_data : list entity) : Py (list entity) :=
  match fuel with
  | O => out_of_fuel
  | S fuel' =>
      let* json_data := get_data u after in
      match json_data with
      | JNull => ret response_data                      (* [if not json_data: break] *)
      | JLineage _ => raise (KeyError "data")
      | JPage p =>
          let filtered_data := data p in
          let response_data := response_data ++ filtered_data in
          match paging p with
          | Some {| paging_after := Some after |} =>
              create_table_files_loop fuel' u after response_data
          | _ => ret response_data
          end
      end
  end.

Definition gcs_folder_path : string := "arquivos/tabelas/".

Definition create_table_files (fuel : nat) (databaseSchema_names : list string)
  : Py unit :=
  for_each databaseSchema_names
    (fun name _ =>
       let* response_data :=
         create_table_files_loop fuel (tables_url name) PyNone [] in
       upload (gcs_folder_path +:+ name +:+ ".json") response_data)
    tt.

(** ** Stage 3: lineage extraction *)

Definition get_lineage_by_id (id : pyval) : Py (option json) :=
  try_except
    (let* response := send (GET (lineage_url id) None) in
     if (status_code response =? 200)%Z
     then ret (Some (response_json response))
     else ret None)
    (fun _ => ret None).

End Catalog.

(** [c.lower()] on one character *)
Definition lower_ascii (c : ascii) : ascii :=
  let n := nat_of_ascii c in
  if (65 <=? n) && (n <=? 90) then ascii_of_nat (n + 32) else c.

(** [s.lower()] *)
Fixpoint lower (s : string) : string :=
  match s with
  | EmptyString => EmptyString
  | String c s' => String (lower_ascii c) (lower s')
  end.

(** [sub in s] *)
Fixpoint contains (sub s : string) : bool :=
  String.prefix sub s ||
  match s with
  | EmptyString => false
  | String _ s' => contains sub s'
  end.

(** [s.endswith(suffix)] *)
Definition endswith (s suffix : string) : bool :=
  (String.length suffix <=? String.length s) &&
  String.eqb
    (String.substring (String.length s - String.length suffix)
                      (String.length suffix) s)
    suffix.

(** An element of the stage-3 artifact: [{'id': id, 'linhagem': linhagem}]. *)
Record filter_result := {
  fr_id : pyval;
  linhagem : lineage
}.

(** [item.get('tableType') == 'Regular' or ... == 'Partitioned' or ... == 'External'] *)
Definition eligible (item : entity) : bool :=
  String.eqb (tableType item) "Regular" ||
  String.eqb (tableType item) "Partitioned" ||
  String.eqb (tableType item) "External".

(** ['k' not in linhagem or not linhagem['k'] or 'lineageDetails' not in linhagem['k'][0]] *)
Definition first_edge_lacks_details (edges : option (list edge)) : bool :=
  match edges with
  | None => true
  | Some [] => true
  | Some (e :: _) =>
      match lineageDetails e with
      | None => true
      | Some _ => false
      end
  end.

(** ['vw' not in node.get('fullyQualifiedName', '').lower()] *)
Definition lacks_vw (n : node) : bool :=
  let fully_qualified_name := default "" (node_fullyQualifiedName n) in
  negb (contains "vw" (lower fully_qualified_name)).

(** The body of [for node in linhagem['nodes']]. *)
Definition processar_node (id : pyval) (linhagem : lineage) (n : node)
    (resultados : list filter_result) : list filter_result :=
  if lacks_vw n then
    if first_edge_lacks_details (downstreamEdges linhagem) then
      if first_edge_lacks_details (upstreamEdges linhagem) then
        resultados ++ [{| fr_id := id; linhagem := linhagem |}]
      else resultados
    else resultados
  else resultados.

(** What follows the fetch in [processar_item]:
    [if linhagem is not None and 'nodes' in linhagem and len(linhagem['nodes']) > 0: for node ...] *)
Definition processar_linhagem (id : pyval) (fetched : option json)
    (resultados : list filter_result) : list filter_result :=
  match fetched with
  | Some (JLineage linhagem) =>
      match nodes linhagem with
      | Some (n :: ns) =>
          fold_left (fun resultados n => processar_node id linhagem n resultados)
                    (n :: ns) resultados
      | _ => resultados
      end
  | _ => resultados
  end.

Definition processar_item (srv : server) (item : entity)
    (resultados : list filter_result) : Py (list filter_result) :=
  if eligible item then
    let id := entity_id item in
    let* linhagem := get_lineage_by_id srv id in
    ret (processar_linhagem id linhagem resultados)
  else ret resultados.

(** ** Stage 4: one edge deletion *)

(** The dictionary [exclude_lineage] returns. *)
Record deletion := {
  del_from_id : pyval;
  del_to_id : pyval;
  del_status : string
}.

Definition Deletada_com_sucesso : string := "Deletada com sucesso".
Definition Erro_ao_deletar : string := "Erro ao deletar".

Definition exclude_lineage (srv : server) (from_id to_id : pyval) : Py deletion :=
  try_except
    (let* response := send srv (DELETE (lineage_edge_url from_id to_id)) in
     if (status_code response =? 200)%Z
     then ret {| del_from_id := from_id; del_to_id := to_id;
                 del_status := Deletada_com_sucesso |}
     else ret {| del_from_id := from_id; del_to_id := to_id;
                 del_status := Erro_ao_deletar |})
    (fun _ => ret {| del_from_id := from_id; del_to_id := to_id;
                     del_status := Erro_ao_deletar |}).

(** [pair in processed_lineage_pairs] *)
Definition is_processed (pair : pyval * pyval) : Py bool :=
  fun w => (Return (bool_decide (pair ∈ processed_lineage_pairs w)), w).

(** [processed_lineage_pairs.add(pair)] *)
Definition add_processed (pair : pyval * pyval) : Py unit :=
  fun w => (Return tt, marked pair w).

(** ** The Airflow DAG, [dag_om.py] *)

Module dag_om.

(** [files] lists the objects under [arquivos/tabelas/] with their content. *)
Definition extract_and_save_lineage (srv : server)
    (files : list (string * list entity)) : Py (list filter_result) :=
  for_each files
    (fun file resultados =>
       if endswith file.1 ".json" then
         for_each file.2 (processar_item srv) resultados
       else ret resultados)
    [].

(** A row of [resultados_delecao.json]. *)
Record result := {
  from_id : pyval;
  from_fully_qualified_name : string;
  to_id : pyval;
  to_fully_qualified_name : string;
  status : string
}.

(** The unordered pair a row stands for is read off its two ids. *)
Definition pair_of (r : result) : pyval * pyval := (from_id r, to_id r).

(** The body of [for edge in downstream_edges]. *)
Definition downstream_edge (srv : server) (item : filter_result) (e : edge)
    (resultados : list result) : Py (list result) :=
  let from_id := fr_id item in
  let to_id := get (toEntity e) in
  let* seen := is_processed (from_id, to_id) in
  let* seen_reversed := is_processed (to_id, from_id) in
  if truthy from_id && truthy to_id && (negb seen && negb seen_reversed) then
    let from_fully_qualified_name :=
      fullyQualifiedName (lineage_entity (linhagem item)) in
    let to_fully_qualified_name := default "" (toEntityFullyQualifiedName e) in
    let* deleted := exclude_lineage srv from_id to_id in
    let resultados :=
      resultados ++
      [{| from_id := from_id;
          from_fully_qualified_name := from_fully_qualified_name;
          to_id := to_id;
          to_fully_qualified_name := to_fully_qualified_name;
          status := del_status deleted |}] in
    let* _ := add_processed (from_id, to_id) in
    ret resultados
  else ret resultados.

(** The body of [for edge in upstream_edges]. *)
Definition upstream_edge (srv : server) (item : filter_result) (e : edge)
    (resultados : list result) : Py (list result) :=
  let from_id := fr_id item in
  let to_id := get (fromEntity e) in
  let* seen := is_processed (from_id, to_id) in
  let* seen_reversed := is_processed (to_id, from_id) in
  if truthy from_id && truthy to_id && (negb seen && negb seen_reversed) then
    let from_fully_qualified_name :=
      fullyQualifiedName (lineage_entity (linhagem item)) in
    let to_fully_qualified_name := default "" (fromEntityFullyQualifiedName e) in
    let* deleted := exclude_lineage srv to_id from_id in
    let resultados :=
      resultados ++
      [{| from_id := from_id;
          from_fully_qualified_name := from_fully_qualified_name;
          to_id := to_id;
          to_fully_qualified_name := to_fully_qualified_name;
          status := del_status deleted |}] in
    let* _ := add_processed (to_id, from_id) in
    ret resultados
  else ret resultados.

(** The body of [for item in data]. *)
Definition delete_item (srv : server) (item : filter_result)
    (resultados : list result) : Py (list result) :=
  let downstream_edges := default [] (downstreamEdges (linhagem item)) in
  let upstream_edges := default [] (upstreamEdges (linhagem item)) in
  let* resultados := for_each downstream_edges (downstream_edge srv item) resultados in
  for_each upstream_edges (upstream_edge srv item) resultados.

Definition delete_lineage (srv : server) (data : list filter_result)
  : Py (list result) :=
  for_each data (delete_item srv) [].

End dag_om.

(** ** The stand-alone script, [deletarlinhagem.py] *)

Module deletarlinhagem.

(** [tables] pairs each schema name of [schemas.json] with the content of
    its file. *)
Definition extract_and_save_lineage (srv : server)
    (tables : list (string * list entity)) : Py (list filter_result) :=
  for_each tables
    (fun file resultados => for_each file.2 (processar_item srv) resultados)
    [].

(** A row of [resultados_delecao.json]. *)
Record result := {
  from_id : pyval;
  to_id : pyval;
  status : string
}.

Definition pair_of (r : result) : pyval * pyval := (from_id r, to_id r).

(** The body of [for edge in downstream_edges]. *)
Definition downstream_edge (srv : server) (item : filter_result) (e : edge)
    (resultados : list result) : Py (list result) :=
  let from_id := fr_id item in
  let to_id := get (toEntity e) in
  if truthy from_id && truthy to_id then
    let* deleted := exclude_lineage srv from_id to_id in
    ret (resultados ++
         [{| from_id := from_id; to_id := to_id;
             status := del_status deleted |}])
  else ret resultados.

(** The body of [for edge in upstream_edges]. *)
Definition upstream_edge (srv : server) (item : filter_result) (e : edge)
    (resultados : list result) : Py (list result) :=
  let from_id := fr_id item in
  let to_id := get (fromEntity e) in
  if truthy from_id && truthy to_id then
    let* deleted := exclude_lineage srv to_id from_id in
    ret (resultados ++
         [{| from_id := from_id; to_id := to_id;
             status := del_status deleted |}])
  else ret resultados.

(** The body of [for item in data]. *)
Definition delete_item (srv : server) (item : filter_result)
    (resultados : list result) : Py (list result) :=
  let downstream_edges := default [] (downstreamEdges (linhagem item)) in
  let upstream_edges := default [] (upstreamEdges (linhagem item)) in
  let* resultados := for_each downstream_edges (downstream_edge srv item) resultados in
  for_each upstream_edges (upstream_edge srv item) resultados.

Definition delete_lineage (srv : server) (data : list filter_result)
  : Py (list result) :=
  for_each data (delete_item srv) [].

End deletarlinhagem.

(** * Vocabulary of the properties *)

(** [m] run in [w] returns, and its value and final world satisfy [Q]. *)
Definition returns {A} (m : Py A) (w : world) (Q : A -> world -> Prop) : Prop :=
  ∃ a w', m w = (Return a, w') ∧ Q a w'.

(** The status [exclude_lineage] reports for a reply of the catalog. *)
Definition status_of (r : reply) : string :=
  match r with
  | Response response =>
      if (status_code response =? 200)%Z
      then Deletada_com_sucesso else Erro_ao_deletar
  | ConnectionError => Erro_ao_deletar
  end.

(** [p] and [q] are the same unordered pair. *)
Definition same_pair (p q : pyval * pyval) : Prop :=
  p = q ∨ p = (q.2, q.1).

(** No two positions of [pairs] hold the same unordered pair. *)
Definition at_most_one_per_pair (pairs : list (pyval * pyval)) : Prop :=
  ∀ i j p q, i ≠ j → pairs !! i = Some p → pairs !! j = Some q → ¬ same_pair p q.

(** The rows the script writes for the edges of one direction: one per
    edge whose two ids are truthy, as (table, other end). *)
Definition attempted (T : pyval) (other_end : edge -> option pyval)
    (edges : list edge) : list (pyval * pyval) :=
  omap (λ e, if truthy T && truthy (get (other_end e))
             then Some (T, get (other_end e)) else None)
       edges.

Definition attempts (item : filter_result) : list (pyval * pyval) :=
  attempted (fr_id item) toEntity (default [] (downstreamEdges (linhagem item))) ++
  attempted (fr_id item) fromEntity (default [] (upstreamEdges (linhagem item))).

(** A catalog that answers every request with status [code] and an empty
    document. *)
Definition always (code : Z) : server :=
  fun _ _ => Response {| status_code := code; response_json := JNull |}.

(** Two tables [A] and [B] joined by one edge, which the graph of [A] lists
    downstream and the graph of [B] lists upstream. *)
Definition table (name : string) : entity :=
  {| entity_id := PyStr name; fullyQualifiedName := "db." +:+ name;
     href := "http://catalog/" +:+ name; tableType := "Regular" |}.

Definition edge_between (from_name to_name : string) : edge :=
  {| fromEntity := Some (PyStr from_name); toEntity := Some (PyStr to_name);
     fromEntityFullyQualifiedName := Some ("db." +:+ from_name);
     toEntityFullyQualifiedName := Some ("db." +:+ to_name);
     lineageDetails := None |}.

Definition graph_of_A : lineage :=
  {| lineage_entity := table "A"; nodes := Some [];
     downstreamEdges := Some [edge_between "A" "B"]; upstreamEdges := Some [] |}.

Definition graph_of_B : lineage :=
  {| lineage_entity := table "B"; nodes := Some [];
     downstreamEdges := Some []; upstreamEdges := Some [edge_between "A" "B"] |}.

Definition edge_listed_twice : list filter_result :=
  [ {| fr_id := PyStr "A"; linhagem := graph_of_A |};
    {| fr_id := PyStr "B"; linhagem := graph_of_B |} ].

(** The invariant of stage 4 of the DAG: no unordered pair has two rows,
    and the pair of every row is in [processed_lineage_pairs], one way
    round or the other. *)
Definition dag_om_invariant (rs : list dag_om.result) (w : world) : Prop :=
  at_most_one_per_pair (map dag_om.pair_of rs) ∧
  ∀ p, p ∈ map dag_om.pair_of rs →
       p ∈ processed_lineage_pairs w ∨ (p.2, p.1) ∈ processed_lineage_pairs w.


(** A successful reply carrying the page [p]. *)
Definition ok (p : page) : reply :=
  Response {| status_code := 200; response_json := JPage p |}.

(** A catalog that replies to the n-th request with the n-th page of a
    script, whatever the request. *)
Definition scripted (pages : list page) : server :=
  fun history _ =>
    match pages !! length history with
    | Some p => ok p
    | None => ConnectionError
    end.

(** A catalog whose reply depends on the request alone. *)
Definition stateless (f : request -> reply) : server := fun _ r => f r.

(** [paging['after']], when both keys are there. *)
Definition cursor (p : page) : option pyval :=
  match paging p with
  | Some paging_info => paging_after paging_info
  | None => None
  end.

(** The schema request that follows the cursor value [after]. *)
Definition schemas_request (after : pyval) : request :=
  GET databaseSchemas_url (cursor_params after).


(** A page of schemas named [names] with the paging metadata [after]. *)
Definition schemas_page (names : list string) (after : option pyval) : page :=
  {| data := map (λ name, {| entity_id := PyStr name; fullyQualifiedName := name;
                             href := ""; tableType := "" |}) names;
     paging := Some {| paging_after := after |} |}.

(** A catalog in which the tables of schema [s1] cannot be listed. *)
Definition s1_is_down : server :=
  fun _ r =>
    match r with
    | GET (tables_url name) _ =>
        if String.eqb name "s1"
        then Response {| status_code := 500; response_json := JNull |}
        else ok {| data := [table "t"]; paging := Some {| paging_after := None |} |}
    | _ => ConnectionError
    end.

(** The same catalog, had the failure come back as a falsy document. *)
Definition s1_is_empty : server :=
  fun _ r =>
    match r with
    | GET (tables_url name) _ =>
        if String.eqb name "s1"
        then Response {| status_code := 200; response_json := JNull |}
        else ok {| data := [table "t"]; paging := Some {| paging_after := None |} |}
    | _ => ConnectionError
    end.

(** The record stage 3 appends for the table [id] and its graph. *)
Definition record_of (id : pyval) (g : lineage) : filter_result :=
  {| fr_id := id; linhagem := g |}.

(** Both first-edge tests of [processar_item] pass. *)
Definition first_edges_pass (g : lineage) : bool :=
  first_edge_lacks_details (downstreamEdges g) &&
  first_edge_lacks_details (upstreamEdges g).

(** The nodes of a graph whose name lacks "vw". *)
Definition nodes_lacking_vw (g : lineage) : list node :=
  List.filter lacks_vw (default [] (nodes g)).

(** [name] has the letters v and w next to each other, in either case. *)
Definition has_vw_ignoring_case (name : string) : Prop :=
  ∃ before a b rest,
    name = before +:+ String a (String b rest) ∧
    (a = "v"%char ∨ a = "V"%char) ∧ (b = "w"%char ∨ b = "W"%char).

(** A catalog that serves the graph [g] for every table. *)
Definition serves (g : lineage) : server :=
  fun _ r =>
    match r with
    | GET (lineage_url _) _ =>
        Response {| status_code := 200; response_json := JLineage g |}
    | _ => ConnectionError
    end.

Definition named (name : string) : node :=
  {| node_fullyQualifiedName := Some name |}.

(** A graph with one node named after a view and two that are not. *)
Definition graph_with_a_view : lineage :=
  {| lineage_entity := table "orders";
     nodes := Some [named "db.VW_sales"; named "db.orders"; named "db.items"];
     downstreamEdges := None; upstreamEdges := None |}.

(** [e] with its [lineageDetails] key set to, or removed by, [details]. *)
Definition with_details (details : option string) (e : edge) : edge :=
  {| fromEntity := fromEntity e; toEntity := toEntity e;
     fromEntityFullyQualifiedName := fromEntityFullyQualifiedName e;
     toEntityFullyQualifiedName := toEntityFullyQualifiedName e;
     lineageDetails := details |}.

(** The edges at index 1 and later get the [lineageDetails] that [details]
    chooses for their index; the edge at index 0 is untouched. *)
Definition retag_later (details : nat -> option string) (edges : list edge)
  : list edge :=
  imap (λ i e, match i with O => e | S _ => with_details (details i) e end) edges.

Definition retag (down up : nat -> option string) (g : lineage) : lineage :=
  {| lineage_entity := lineage_entity g;
     nodes := nodes g;
     downstreamEdges := retag_later down <$> downstreamEdges g;
     upstreamEdges := retag_later up <$> upstreamEdges g |}.

(** A loop body that returns its accumulator with new elements appended. *)
Definition appends {X} (body : list X -> Py (list X)) : Prop :=
  ∀ rs w, ∃ new w', body rs w = (Return (rs ++ new), w').

(** ** Vocabulary of the further properties *)

(** The (from, to) arguments of a request that deletes an edge. *)
Definition delete_call (r : request) : option (pyval * pyval) :=
  match r with
  | DELETE (lineage_edge_url a b) => Some (a, b)
  | _ => None
  end.

(** The pair [p] is in the set, one way round or the other. *)
Definition covered (pairs : gset (pyval * pyval)) (p : pyval * pyval) : Prop :=
  p ∈ pairs ∨ (p.2, p.1) ∈ pairs.

(** The requests [new], sent after [before], are one DELETE per row, in
    order: the i-th request names the pair of the i-th row, one way round
    or the other, and the status of the row is the one [exclude_lineage]
    reports for the reply to that request. *)
Definition reports (srv : server) (before new : list request)
    (rows : list ((pyval * pyval) * string)) : Prop :=
  length new = length rows ∧
  ∀ i p st, rows !! i = Some (p, st) →
    ∃ a b, new !! i = Some (DELETE (lineage_edge_url a b)) ∧
           same_pair (a, b) p ∧
           st = status_of (srv (before ++ take i new)
                               (DELETE (lineage_edge_url a b))).

Definition dag_om_row (r : dag_om.result) : (pyval * pyval) * string :=
  (dag_om.pair_of r, dag_om.status r).


(** What a run of stage 4 of the DAG that started in [w0] has done when it
    holds the rows [rs] in the world [w]. *)
Definition dag_om_trace (srv : server) (w0 : world)
    (rs : list dag_om.result) (w : world) : Prop :=
  ∃ new,
    requests w = requests w0 ++ new ∧
    uploads w = uploads w0 ∧
    processed_lineage_pairs w =
      list_to_set (omap delete_call new) ∪ processed_lineage_pairs w0 ∧
    reports srv (requests w0) new (map dag_om_row rs).


(** What [get_lineage_by_id] returns for a reply of the catalog. *)
Definition fetched (r : reply) : option json :=
  match r with
  | Response response =>
      if (status_code response =? 200)%Z
      then Some (response_json response) else None
  | ConnectionError => None
  end.

(** The request [get_lineage_by_id] sends for a table. *)
Definition lineage_request (item : entity) : request :=
  GET (lineage_url (entity_id item)) None.


(** The objects the DAG reads: those whose name ends in [.json]. *)
Definition json_files (files : list (string * list entity))
  : list (string * list entity) :=
  List.filter (λ file, endswith file.1 ".json") files.

(** The record [r] is one that [processar_item] appends for [item]: the
    table is of an eligible type, the catalog served the graph with status
    200 for its request, both first-edge tests pass and some node of the
    graph lacks "vw". *)
Definition record_from (srv : server) (item : entity) (r : filter_result) : Prop :=
  eligible item = true ∧
  fr_id r = entity_id item ∧
  first_edges_pass (linhagem r) = true ∧
  (∃ n, n ∈ default [] (nodes (linhagem r)) ∧ lacks_vw n = true) ∧
  ∃ history,
    fetched (srv history (lineage_request item)) = Some (JLineage (linhagem r)).

(** A catalog that replies to the n-th request with the n-th reply of a
    script, whatever the request, and is unreachable afterwards. *)
Definition replays (replies : list reply) : server :=
  fun history _ => default ConnectionError (replies !! length history).

(** The exception one turn of the schema loop raises on a reply, if any. *)
Definition schema_turn_fails (r : reply) : option exn :=
  match r with
  | ConnectionError => Some RequestException
  | Response response =>
      if (status_code response =? 200)%Z then
        match response_json response with
        | JPage {| paging := Some _ |} => None
        | JPage _ => Some (KeyError "paging")
        | _ => Some (KeyError "data")
        end
      else Some (StatusException (status_code response))
  end.

(** The items a reply adds when it ends the table loop of a schema
    normally: a falsy document adds none, a page without cursor its data. *)
Definition ends_listing (r : reply) : option (list entity) :=
  match r with
  | Response response =>
      if (status_code response =? 200)%Z then
        match response_json response with
        | JNull => Some []
        | JPage p =>
            match cursor p with
            | None => Some (data p)
            | Some _ => None
            end
        | JLineage _ => None
        end
      else None
  | ConnectionError => None
  end.

(** The replies the catalog gives while the tables of one schema are
    listed: pages that carry a cursor, then a closing reply. *)
Record listing := {
  schema : string;
  cursor_pages : list page;
  closing : reply
}.

Definition listing_replies (l : listing) : list reply :=
  map ok (cursor_pages l) ++ [closing l].

Definition listing_content (l : listing) : list entity :=
  concat (map data (cursor_pages l)) ++ default [] (ends_listing (closing l)).

(** The requests of a loop that starts without cursor and follows the
    cursors of [pages]. *)
Definition paged_requests (u : url) (after : pyval) (pages : list page)
  : list request :=
  map (λ c, GET u (cursor_params c))
      (after :: map (λ p, default PyNone (cursor p)) pages).

Definition listing_requests (l : listing) : list request :=
  paged_requests (tables_url (schema l)) PyNone (cursor_pages l).

Definition well_listed (fuel : nat) (l : listing) : Prop :=
  Forall (λ p, is_Some (cursor p)) (cursor_pages l) ∧
  is_Some (ends_listing (closing l)) ∧
  length (cursor_pages l) < fuel.

(** The object stage 2 uploads for a schema. *)
Definition table_object (name : string) : string :=
  gcs_folder_path +:+ name +:+ ".json".

(** The world after the requests [new] were sent. *)
Definition sent_all (new : list request) (w : world) : world :=
  {| requests := requests w ++ new;
     processed_lineage_pairs := processed_lineage_pairs w;
     uploads := uploads w |}.

(** Starting with the cursor [after], the table loop on [u] receives, now
    or later, a page whose ['after'] is present and falsy. *)
Inductive table_loop_hits_falsy_cursor (f : request -> reply) (u : url)
  : pyval -> Prop :=
  | table_hits_now after p c :
      f (GET u (cursor_params after)) = ok p →
      cursor p = Some c → truthy c = false →
      table_loop_hits_falsy_cursor f u after
  | table_hits_later after p c :
      f (GET u (cursor_params after)) = ok p →
      cursor p = Some c → table_loop_hits_falsy_cursor f u c →
      table_loop_hits_falsy_cursor f u after.

(** A page of tables with the paging metadata [after]. *)
Definition tables_page (names : list string) (after : option pyval) : page :=
  {| data := map table names; paging := Some {| paging_after := after |} |}.

(** The records stage 3 appends for one table when the reply of the
    catalog depends on the request alone. *)
Definition records_of (f : request -> reply) (item : entity) : list filter_result :=
  if eligible item
  then processar_linhagem (entity_id item) (fetched (f (lineage_request item))) []
  else [].

(** The pair [p] names the table of the record [r] and the other end of
    one of the edges of its graph, both truthy. *)
Definition row_of_record (p : pyval * pyval) (r : filter_result) : Prop :=
  p.1 = fr_id r ∧ truthy p.1 = true ∧ truthy p.2 = true ∧
  ((∃ e, e ∈ default [] (downstreamEdges (linhagem r)) ∧ p.2 = get (toEntity e)) ∨
   (∃ e, e ∈ default [] (upstreamEdges (linhagem r)) ∧ p.2 = get (fromEntity e))).

(** * Properties *)

(** ** Reasoning rules for [Py] *)

Lemma returns_ret {A} (a : A) w (Q : A -> world -> Prop) :
  Q a w → returns (ret a) w Q.
Proof. intros HQ. exists a, w. done. Qed.

Lemma returns_bind {A B} (m : Py A) (k : A -> Py B) w
    (Q : A -> world -> Prop) (R : B -> world -> Prop) :
  returns m w Q →
  (∀ a w', Q a w' → returns (k a) w' R) →
  returns (bind m k) w R.
Proof.
  intros (a & w' & Hm & HQ) Hk.
  destruct (Hk a w' HQ) as (b & w'' & Hb & HR).
  exists b, w''. unfold bind. rewrite Hm. done.
Qed.

Lemma returns_weaken {A} (m : Py A) w (Q R : A -> world -> Prop) :
  returns m w Q → (∀ a w', Q a w' → R a w') → returns m w R.
Proof. intros (a & w' & Hm & HQ) HQR. exists a, w'. auto. Qed.

(** A loop whose body keeps an invariant keeps it. *)
Lemma for_each_invariant {A S} (I : S -> world -> Prop) (xs : list A)
    (body : A -> S -> Py S) :
  (∀ x s w, I s w → returns (body x s) w I) →
  ∀ s w, I s w → returns (for_each xs body s) w I.
Proof.
  intros Hbody. induction xs as [|x xs IH]; intros s w HI; simpl.
  - by apply returns_ret.
  - eapply returns_bind; [by apply Hbody | done].
Qed.


(** ** One edge deletion *)

Lemma exclude_lineage_eq srv from_id to_id w :
  exclude_lineage srv from_id to_id w =
  (Return {| del_from_id := from_id; del_to_id := to_id;
             del_status :=
               status_of (srv (requests w) (DELETE (lineage_edge_url from_id to_id))) |},
   sent (DELETE (lineage_edge_url from_id to_id)) w).
Proof.
  unfold exclude_lineage, try_except, bind, send, status_of.
  destruct (srv _ _) as [r|]; [|done].
  by destruct (status_code r =? 200)%Z.
Qed.

Lemma dag_om_downstream_edge_eq srv item e rs w :
  dag_om.downstream_edge srv item e rs w =
  let T := fr_id item in
  let X := get (toEntity e) in
  if truthy T && truthy X &&
     (negb (bool_decide ((T, X) ∈ processed_lineage_pairs w)) &&
      negb (bool_decide ((X, T) ∈ processed_lineage_pairs w)))
  then
    (Return (rs ++
       [{| dag_om.from_id := T;
           dag_om.from_fully_qualified_name :=
             fullyQualifiedName (lineage_entity (linhagem item));
           dag_om.to_id := X;
           dag_om.to_fully_qualified_name :=
             default "" (toEntityFullyQualifiedName e);
           dag_om.status :=
             status_of (srv (requests w) (DELETE (lineage_edge_url T X))) |}]),
     marked (T, X) (sent (DELETE (lineage_edge_url T X)) w))
  else (Return rs, w).
Proof.
  unfold dag_om.downstream_edge, bind, is_processed, add_processed, ret. simpl.
  destruct (_ && _); [|done].
  by rewrite exclude_lineage_eq.
Qed.

Lemma dag_om_upstream_edge_eq srv item e rs w :
  dag_om.upstream_edge srv item e rs w =
  let T := fr_id item in
  let X := get (fromEntity e) in
  if truthy T && truthy X &&
     (negb (bool_decide ((T, X) ∈ processed_lineage_pairs w)) &&
      negb (bool_decide ((X, T) ∈ processed_lineage_pairs w)))
  then
    (Return (rs ++
       [{| dag_om.from_id := T;
           dag_om.from_fully_qualified_name :=
             fullyQualifiedName (lineage_entity (linhagem item));
           dag_om.to_id := X;
           dag_om.to_fully_qualified_name :=
             default "" (fromEntityFullyQualifiedName e);
           dag_om.status :=
             status_of (srv (requests w) (DELETE (lineage_edge_url X T))) |}]),
     marked (X, T) (sent (DELETE (lineage_edge_url X T)) w))
  else (Return rs, w).
Proof.
  unfold dag_om.upstream_edge, bind, is_processed, add_processed, ret. simpl.
  destruct (_ && _); [|done].
  by rewrite exclude_lineage_eq.
Qed.

Lemma script_downstream_edge_eq srv item e rs w :
  deletarlinhagem.downstream_edge srv item e rs w =
  let T := fr_id item in
  let X := get (toEntity e) in
  if truthy T && truthy X
  then
    (Return (rs ++
       [{| deletarlinhagem.from_id := T;
           deletarlinhagem.to_id := X;
           deletarlinhagem.status :=
             status_of (srv (requests w) (DELETE (lineage_edge_url T X))) |}]),
     sent (DELETE (lineage_edge_url T X)) w)
  else (Return rs, w).
Proof.
  unfold deletarlinhagem.downstream_edge, bind, ret. simpl.
  destruct (_ && _); [|done].
  by rewrite exclude_lineage_eq.
Qed.

Lemma script_upstream_edge_eq srv item e rs w :
  deletarlinhagem.upstream_edge srv item e rs w =
  let T := fr_id item in
  let X := get (fromEntity e) in
  if truthy T && truthy X
  then
    (Return (rs ++
       [{| deletarlinhagem.from_id := T;
           deletarlinhagem.to_id := X;
           deletarlinhagem.status :=
             status_of (srv (requests w) (DELETE (lineage_edge_url X T))) |}]),
     sent (DELETE (lineage_edge_url X T)) w)
  else (Return rs, w).
Proof.
  unfold deletarlinhagem.upstream_edge, bind, ret. simpl.
  destruct (_ && _); [|done].
  by rewrite exclude_lineage_eq.
Qed.

(** ** Unordered pairs *)

Lemma same_pair_sym p q : same_pair p q → same_pair q p.
Proof.
  destruct p as [a b], q as [c d]. unfold same_pair. simpl.
  intros [H|H]; inversion H; subst; auto.
Qed.

Lemma at_most_one_snoc pairs x :
  at_most_one_per_pair pairs →
  (∀ p, p ∈ pairs → ¬ same_pair p x) →
  at_most_one_per_pair (pairs ++ [x]).
Proof.
  intros Hl Hx i j p q Hij Hi Hj.
  apply lookup_snoc_Some in Hi as [[Hil Hi]|[Hil ->]];
    apply lookup_snoc_Some in Hj as [[Hjl Hj]|[Hjl ->]].
  - by eapply Hl.
  - apply Hx. eapply list_elem_of_lookup_2, Hi.
  - intros Hs. apply same_pair_sym in Hs. revert Hs.
    apply Hx. eapply list_elem_of_lookup_2, Hj.
  - lia.
Qed.

(** ** Stage 4 of the DAG: the processed set covers every row *)

Lemma dag_om_invariant_new rs w T X r fqn1 fqn2 st (reversed : bool) :
  dag_om_invariant rs w →
  (T, X) ∉ processed_lineage_pairs w →
  (X, T) ∉ processed_lineage_pairs w →
  dag_om_invariant
    (rs ++ [{| dag_om.from_id := T; dag_om.from_fully_qualified_name := fqn1;
               dag_om.to_id := X; dag_om.to_fully_qualified_name := fqn2;
               dag_om.status := st |}])
    (marked (if reversed then (X, T) else (T, X)) (sent r w)).
Proof.
  intros [Hone Hcov] H1 H2. split.
  - rewrite map_app. simpl. apply at_most_one_snoc; [done|].
    intros [a b] Hp [Hs|Hs]; inversion Hs; subst;
      destruct (Hcov _ Hp) as [?|?]; simpl in *; done.
  - intros p. rewrite map_app, elem_of_app. simpl.
    intros [Hp | Hp%list_elem_of_singleton].
    + destruct (Hcov _ Hp) as [?|?]; [left|right]; by apply elem_of_union_r.
    + subst p. unfold dag_om.pair_of. simpl.
      destruct reversed; [right|left]; by apply elem_of_union_l, elem_of_singleton.
Qed.

Lemma dag_om_downstream_edge_invariant srv item e rs w :
  dag_om_invariant rs w →
  returns (dag_om.downstream_edge srv item e rs) w dag_om_invariant.
Proof.
  intros HI. unfold returns. rewrite dag_om_downstream_edge_eq. simpl.
  destruct (_ && _) eqn:Hguard; [|by eauto].
  apply andb_prop in Hguard as [_ [H1 H2]%andb_prop].
  apply negb_true_iff, bool_decide_eq_false in H1, H2.
  eexists _, _. split; [done|].
  by apply (dag_om_invariant_new _ _ _ _ _ _ _ _ false).
Qed.

Lemma dag_om_upstream_edge_invariant srv item e rs w :
  dag_om_invariant rs w →
  returns (dag_om.upstream_edge srv item e rs) w dag_om_invariant.
Proof.
  intros HI. unfold returns. rewrite dag_om_upstream_edge_eq. simpl.
  destruct (_ && _) eqn:Hguard; [|by eauto].
  apply andb_prop in Hguard as [_ [H1 H2]%andb_prop].
  apply negb_true_iff, bool_decide_eq_false in H1, H2.
  eexists _, _. split; [done|].
  by apply (dag_om_invariant_new _ _ _ _ _ _ _ _ true).
Qed.

Lemma dag_om_delete_lineage_invariant srv data w :
  returns (dag_om.delete_lineage srv data) w dag_om_invariant.
Proof.
  apply for_each_invariant.
  - intros item rs v HI. unfold dag_om.delete_item.
    eapply returns_bind.
    + apply for_each_invariant; [|exact HI].
      intros. by apply dag_om_downstream_edge_invariant.
    + intros rs' v' HI'. apply for_each_invariant; [|exact HI'].
      intros. by apply dag_om_upstream_edge_invariant.
  - split; [|by intros p Hp; simpl in Hp; apply elem_of_nil in Hp].
    intros i j p q _ Hi. done.
Qed.

(** ** Stage 4 of the script: one row per edge *)

(** An invariant that follows the elements a loop has consumed. *)
Lemma for_each_progress {A S} (I : list A -> S -> world -> Prop) (xs : list A)
    (body : A -> S -> Py S) :
  (∀ seen x s w, I seen s w → returns (body x s) w (I (seen ++ [x]))) →
  ∀ s w, I [] s w → returns (for_each xs body s) w (I xs).
Proof.
  intros Hbody.
  assert (∀ seen s w, I seen s w →
            returns (for_each xs body s) w (I (seen ++ xs))) as Hgen.
  { induction xs as [|x xs IH]; intros seen s w HI; simpl.
    - apply returns_ret. by rewrite app_nil_r.
    - eapply returns_bind; [by apply Hbody|].
      intros s' w' HI'. specialize (IH _ _ _ HI').
      by rewrite <- app_assoc in IH. }
  intros s w HI. exact (Hgen [] s w HI).
Qed.

Lemma attempted_snoc T other_end edges e :
  attempted T other_end (edges ++ [e]) =
  attempted T other_end edges ++
  (if truthy T && truthy (get (other_end e))
   then [(T, get (other_end e))] else []).
Proof.
  unfold attempted. rewrite omap_app. simpl.
  by destruct (_ && _).
Qed.

Lemma script_delete_item_pairs srv item rs w :
  returns (deletarlinhagem.delete_item srv item rs) w (λ rs' _,
    map deletarlinhagem.pair_of rs' =
    map deletarlinhagem.pair_of rs ++ attempts item).
Proof.
  unfold deletarlinhagem.delete_item, attempts.
  eapply returns_bind.
  - apply (for_each_progress (λ seen rs' _,
      map deletarlinhagem.pair_of rs' =
      map deletarlinhagem.pair_of rs ++ attempted (fr_id item) toEntity seen)).
    + intros seen e rs' v Hrs. unfold returns.
      rewrite script_downstream_edge_eq, attempted_snoc. simpl.
      destruct (_ && _); eexists _, _; (split; [done|]).
      * by rewrite map_app, Hrs, <- app_assoc.
      * by rewrite app_nil_r.
    + by rewrite app_nil_r.
  - intros rs' w' Hrs'. simpl in Hrs'.
    eapply returns_weaken.
    + apply (for_each_progress (λ seen rs'' _,
        map deletarlinhagem.pair_of rs'' =
        map deletarlinhagem.pair_of rs' ++ attempted (fr_id item) fromEntity seen)).
      * intros seen e rs'' v Hrs. unfold returns.
        rewrite script_upstream_edge_eq, attempted_snoc. simpl.
        destruct (_ && _); eexists _, _; (split; [done|]).
        -- by rewrite map_app, Hrs, <- app_assoc.
        -- by rewrite app_nil_r.
      * by rewrite app_nil_r.
    + intros rs'' v Hrs. simpl in Hrs. by rewrite Hrs, Hrs', <- app_assoc.
Qed.

Lemma script_delete_lineage_pairs srv data w :
  returns (deletarlinhagem.delete_lineage srv data) w (λ rs _,
    map deletarlinhagem.pair_of rs = flat_map attempts data).
Proof.
  unfold deletarlinhagem.delete_lineage.
  apply (for_each_progress (λ seen rs _,
    map deletarlinhagem.pair_of rs = flat_map attempts seen)); [|done].
  intros seen item rs v Hrs.
  destruct (script_delete_item_pairs srv item rs v) as (rs' & v' & Hrun & Hrs').
  exists rs', v'. split; [done|].
  by rewrite Hrs', Hrs, flat_map_app; simpl; rewrite app_nil_r.
Qed.

(** ** Stage 4 of the DAG: the rows do not depend on the replies *)




(** ** The claims on stage 4 *)

Example script_rows_for_the_edge_listed_twice :
  (deletarlinhagem.delete_lineage (always 200) edge_listed_twice fresh).1 =
  Return [ {| deletarlinhagem.from_id := PyStr "A";
              deletarlinhagem.to_id := PyStr "B";
              deletarlinhagem.status := Deletada_com_sucesso |};
           {| deletarlinhagem.from_id := PyStr "B";
              deletarlinhagem.to_id := PyStr "A";
              deletarlinhagem.status := Deletada_com_sucesso |} ].
Proof. reflexivity. Qed.

(** C1, as stated, fails on the script: for the edge A→B listed downstream
    of [A] and upstream of [B], [deletarlinhagem.delete_lineage] returns two
    rows, (A, B) and (B, A), for the unordered pair {A, B}. *)
Lemma script_writes_a_pair_twice :
  ¬ returns (deletarlinhagem.delete_lineage (always 200) edge_listed_twice) fresh
      (λ rs _, at_most_one_per_pair (map deletarlinhagem.pair_of rs)).
Proof.
  intros (rs & w' & Hrun & Hone).
  pose proof script_rows_for_the_edge_listed_twice as Hrows.
  rewrite Hrun in Hrows. simpl in Hrows. injection Hrows as ->.
  apply (Hone 0 1 (PyStr "A", PyStr "B") (PyStr "B", PyStr "A")); try done.
  by right.
Qed.

(** C1, amended: whatever the catalog replies and whatever
    [processed_lineage_pairs] already holds, [dag_om.delete_lineage] returns
    rows no two of which stand for the same unordered pair {from_id, to_id};
    [deletarlinhagem.delete_lineage] has no such suppression and returns
    one row per edge whose two ids are truthy. *)
Theorem delete_lineage_at_most_one_row_per_pair srv data w :
  returns (dag_om.delete_lineage srv data) w (λ rs _,
    at_most_one_per_pair (map dag_om.pair_of rs)) ∧
  returns (deletarlinhagem.delete_lineage srv data) w (λ rs _,
    map deletarlinhagem.pair_of rs = flat_map attempts data).
Proof.
  split.
  - eapply returns_weaken; [apply dag_om_delete_lineage_invariant|].
    by intros rs w' [Hone _].
  - apply script_delete_lineage_pairs.
Qed.

Example dag_om_deletes_the_pair_once :
  (dag_om.delete_lineage (always 200) edge_listed_twice fresh).1 =
  Return [ {| dag_om.from_id := PyStr "A";
              dag_om.from_fully_qualified_name := "db.A";
              dag_om.to_id := PyStr "B";
              dag_om.to_fully_qualified_name := "db.B";
              dag_om.status := Deletada_com_sucesso |} ].
Proof. vm_compute. reflexivity. Qed.

Example dag_om_sends_one_delete :
  requests (dag_om.delete_lineage (always 200) edge_listed_twice fresh).2 =
  [DELETE (lineage_edge_url (PyStr "A") (PyStr "B"))].
Proof. vm_compute. reflexivity. Qed.





(** ** Stage 1: the pagination loop *)

Lemma get_data_ok srv u after w p :
  srv (requests w) (GET u (cursor_params after)) = ok p →
  get_data srv u after w = (Return (JPage p), sent (GET u (cursor_params after)) w).
Proof.
  intros Hreply. unfold get_data, bind, send. by rewrite Hreply.
Qed.

Lemma get_data_falsy_cursor srv u after w :
  truthy after = false →
  get_data srv u after w = get_data srv u PyNone w.
Proof.
  intros Hfalsy. unfold get_data, cursor_params. by rewrite Hfalsy.
Qed.

(** One turn of the loop on a page that carries a cursor. *)
Lemma fetch_schemas_loop_next srv fuel after result w p c :
  srv (requests w) (schemas_request after) = ok p →
  cursor p = Some c →
  fetch_schemas_loop srv (S fuel) after result w =
  fetch_schemas_loop srv fuel c (result ++ map fullyQualifiedName (data p))
                     (sent (schemas_request after) w).
Proof.
  intros Hreply Hc. simpl. unfold bind at 1.
  rewrite (get_data_ok _ _ _ _ _ Hreply).
  unfold cursor in Hc. destruct p as [items [[o]|]]; simpl in *; [|done].
  by subst o.
Qed.

(** One turn of the loop on a page whose paging has no ['after']. *)
Lemma fetch_schemas_loop_last srv fuel after result w p :
  srv (requests w) (schemas_request after) = ok p →
  paging p = Some {| paging_after := None |} →
  fetch_schemas_loop srv (S fuel) after result w =
  (Return (result ++ map fullyQualifiedName (data p)),
   sent (schemas_request after) w).
Proof.
  intros Hreply Hp. simpl. unfold bind at 1.
  rewrite (get_data_ok _ _ _ _ _ Hreply).
  destruct p as [items pg]. simpl in *. by subst pg.
Qed.


Lemma fetch_schemas_loop_script consumed rest last :
  Forall (λ p, is_Some (cursor p)) rest →
  paging last = Some {| paging_after := None |} →
  ∀ fuel after result w,
    length (requests w) = length consumed →
    length rest < fuel →
    returns (fetch_schemas_loop (scripted (consumed ++ rest ++ [last])) fuel after result)
      w (λ names w',
        names = result ++ concat (map (λ p, map fullyQualifiedName (data p)) (rest ++ [last])) ∧
        requests w' =
          requests w ++
          map schemas_request (after :: map (λ p, default PyNone (cursor p)) rest)).
Proof.
  intros Hrest Hlast. revert consumed.
  induction Hrest as [|p rest [c Hc] _ IH];
    intros consumed fuel after result w Hlen Hfuel;
    (destruct fuel as [|fuel]; [simpl in Hfuel; lia|]).
  - assert (scripted (consumed ++ [] ++ [last]) (requests w) (schemas_request after)
            = ok last) as Hreply.
    { unfold scripted. rewrite Hlen. simpl.
      by rewrite list_lookup_middle. }
    exists (result ++ map fullyQualifiedName (data last)),
           (sent (schemas_request after) w).
    split; [by apply fetch_schemas_loop_last|].
    simpl. by rewrite app_nil_r.
  - assert (scripted (consumed ++ (p :: rest) ++ [last]) (requests w)
              (schemas_request after) = ok p) as Hreply.
    { unfold scripted. rewrite Hlen. simpl.
      by rewrite list_lookup_middle. }
    unfold returns.
    rewrite (fetch_schemas_loop_next _ _ _ _ _ _ _ Hreply Hc).
    destruct (IH (consumed ++ [p]) fuel c
                 (result ++ map fullyQualifiedName (data p))
                 (sent (schemas_request after) w)) as (names & w' & Hrun & -> & Hreq).
    { simpl. rewrite !length_app. simpl. lia. }
    { simpl in Hfuel. lia. }
    exists (((result ++ map fullyQualifiedName (data p)) ++
            concat (map (λ p, map fullyQualifiedName (data p)) (rest ++ [last])))), w'.
    split; [|split].
    + rewrite <- Hrun. by rewrite <- app_assoc.
    + simpl. by rewrite <- app_assoc.
    + rewrite Hreq. simpl. rewrite Hc. simpl. by rewrite <- app_assoc.
Qed.

(** C7: let the catalog reply with the pages of a finite script, each page
    but the last carrying an ['after'] cursor and the paging of the last
    one lacking it.  Then [fetch_schemas], given fuel for that many turns,
    returns the [fullyQualifiedName]s of all pages, in page order and in
    item order within a page, after sending exactly one request per page:
    the first without cursor, each later one with the cursor of the page
    before it. *)
Theorem fetch_schemas_reads_every_page pages last fuel :
  Forall (λ p, is_Some (cursor p)) pages →
  paging last = Some {| paging_after := None |} →
  length pages < fuel →
  returns (fetch_schemas (scripted (pages ++ [last])) fuel) fresh (λ names w',
    names = concat (map (λ p, map fullyQualifiedName (data p)) (pages ++ [last])) ∧
    requests w' =
      map schemas_request (PyNone :: map (λ p, default PyNone (cursor p)) pages) ∧
    length (requests w') = length (pages ++ [last])).
Proof.
  intros Hpages Hlast Hfuel.
  eapply returns_weaken.
  - apply (fetch_schemas_loop_script [] pages last Hpages Hlast fuel PyNone [] fresh);
      [done|done].
  - intros names w' [-> Hreq]. simpl in Hreq. split; [done|]. split; [done|].
    rewrite Hreq. simpl. rewrite !length_map, length_app. simpl. lia.
Qed.

Lemma fetch_schemas_reads_every_page_witness :
  returns
    (fetch_schemas
       (scripted ([schemas_page ["db.s1"; "db.s2"] (Some (PyStr "c1"));
                   schemas_page ["db.s3"] (Some (PyStr "c2"))] ++
                  [schemas_page ["db.s4"] None])) 3)
    fresh
    (λ names w',
       names = concat (map (λ p, map fullyQualifiedName (data p))
                 ([schemas_page ["db.s1"; "db.s2"] (Some (PyStr "c1"));
                   schemas_page ["db.s3"] (Some (PyStr "c2"))] ++
                  [schemas_page ["db.s4"] None])) ∧
       requests w' =
         map schemas_request
           (PyNone :: map (λ p, default PyNone (cursor p))
              [schemas_page ["db.s1"; "db.s2"] (Some (PyStr "c1"));
               schemas_page ["db.s3"] (Some (PyStr "c2"))]) ∧
       length (requests w') =
         length ([schemas_page ["db.s1"; "db.s2"] (Some (PyStr "c1"));
                  schemas_page ["db.s3"] (Some (PyStr "c2"))] ++
                 [schemas_page ["db.s4"] None])).
Proof.
  apply (fetch_schemas_reads_every_page
           [schemas_page ["db.s1"; "db.s2"] (Some (PyStr "c1"));
            schemas_page ["db.s3"] (Some (PyStr "c2"))]
           (schemas_page ["db.s4"] None) 3).
  - repeat constructor; simpl; eexists; reflexivity.
  - reflexivity.
  - simpl. lia.
Defined.

Example fetch_schemas_three_pages :
  fetch_schemas
    (scripted [schemas_page ["db.s1"; "db.s2"] (Some (PyStr "c1"));
               schemas_page ["db.s3"] (Some (PyStr "c2"));
               schemas_page ["db.s4"] None]) 3 fresh =
  (Return ["db.s1"; "db.s2"; "db.s3"; "db.s4"],
   {| requests := [GET databaseSchemas_url None;
                   GET databaseSchemas_url (Some (PyStr "c1"));
                   GET databaseSchemas_url (Some (PyStr "c2"))];
      processed_lineage_pairs := ∅; uploads := [] |}).
Proof. reflexivity. Qed.

(** ** Stage 1: a falsy cursor *)




Example fetch_schemas_repeats_the_first_request :
  fetch_schemas
    (stateless (λ _, ok (schemas_page ["db.s1"] (Some (PyStr ""))))) 3 fresh =
  (OutOfFuel,
   {| requests := [GET databaseSchemas_url None;
                   GET databaseSchemas_url None;
                   GET databaseSchemas_url None];
      processed_lineage_pairs := ∅; uploads := [] |}).
Proof. reflexivity. Qed.

(** ** Stage 2: a schema that cannot be listed *)

Lemma create_table_files_loop_raises srv fuel u w e :
  (get_data srv u PyNone w).1 = Raise e →
  create_table_files_loop srv (S fuel) u PyNone [] w =
  (Raise e, sent (GET u None) w).
Proof.
  simpl. unfold bind, get_data, bind, send, cursor_params. simpl.
  destruct (srv _ _) as [r|]; simpl.
  - destruct (status_code r =? 200)%Z; simpl; [done|]. by intros [= ->].
  - by intros [= ->].
Qed.

Lemma create_table_files_aborts srv fuel name names w e :
  (get_data srv (tables_url name) PyNone w).1 = Raise e →
  create_table_files srv (S fuel) (name :: names) w =
  (Raise e, sent (GET (tables_url name) None) w).
Proof.
  intros Hraise. unfold create_table_files. cbn [for_each].
  unfold bind at 1. unfold bind at 1.
  by rewrite (create_table_files_loop_raises _ _ _ _ _ Hraise).
Qed.

(** C3, on the code: with the schemas [s1] and [s2] and a catalog that
    answers the listing of [s1] with status 500, [create_table_files]
    raises out of the first [get_data]: one request was sent, none for
    [s2], and nothing was uploaded. *)
Theorem create_table_files_stops_at_the_failing_schema fuel :
  create_table_files s1_is_down (S fuel) ["s1"; "s2"] fresh =
  (Raise (StatusException 500),
   {| requests := [GET (tables_url "s1") None];
      processed_lineage_pairs := ∅; uploads := [] |}).
Proof. by rewrite (create_table_files_aborts _ _ _ _ _ (StatusException 500)). Qed.

(** Had [get_data] returned a falsy value for the failed request, as its
    docstring says, the guard [if not json_data: break] would have ended
    the loop of [s1] only, and [s2] would have been listed. *)
Example create_table_files_goes_on_after_a_falsy_document :
  create_table_files s1_is_empty 1 ["s1"; "s2"] fresh =
  (Return tt,
   {| requests := [GET (tables_url "s1") None; GET (tables_url "s2") None];
      processed_lineage_pairs := ∅;
      uploads := [("arquivos/tabelas/s1.json", []);
                  ("arquivos/tabelas/s2.json", [table "t"])] |}).
Proof. reflexivity. Qed.

(** ** Stage 3: the filter *)

Lemma lower_ascii_v c : lower_ascii c = "v"%char ↔ c = "v"%char ∨ c = "V"%char.
Proof.
  split.
  - destruct c as [[] [] [] [] [] [] [] []]; vm_compute; intros H;
      try discriminate H; auto.
  - by intros [-> | ->].
Qed.

Lemma lower_ascii_w c : lower_ascii c = "w"%char ↔ c = "w"%char ∨ c = "W"%char.
Proof.
  split.
  - destruct c as [[] [] [] [] [] [] [] []]; vm_compute; intros H;
      try discriminate H; auto.
  - by intros [-> | ->].
Qed.

Lemma prefix_cons a s1 b s2 :
  String.prefix (String a s1) (String b s2) =
  if ascii_dec a b then String.prefix s1 s2 else false.
Proof. reflexivity. Qed.

Lemma prefix_empty s : String.prefix "" s = true.
Proof. by destruct s. Qed.

Lemma prefix_vw a s :
  String.prefix "vw" (String a s) = true ↔
  a = "v"%char ∧ ∃ b rest, s = String b rest ∧ b = "w"%char.
Proof.
  rewrite prefix_cons. destruct (ascii_dec "v" a) as [<-|Hv].
  - destruct s as [|b rest].
    + split; [done|]. by intros [_ (? & ? & ? & _)].
    + rewrite prefix_cons, prefix_empty.
      destruct (ascii_dec "w" b) as [<-|Hw].
      * split; [|done]. intros _. split; [done|]. by eexists _, _.
      * split; [done|]. intros [_ (? & ? & [= <- _] & ->)]. done.
  - split; [done|]. by intros [-> _].
Qed.

(** ['vw' in name.lower()] is the case-insensitive test. *)
Lemma contains_vw_lower name :
  contains "vw" (lower name) = true ↔ has_vw_ignoring_case name.
Proof.
  unfold has_vw_ignoring_case.
  induction name as [|c name IH].
  - split; [done|]. intros ([|c before] & a & b & rest & H & _); done.
  - cbn [lower contains]. rewrite orb_true_iff, prefix_vw, IH. split.
    + intros [[Hv (b' & rest' & Hname & Hw)] | (before & a & b & rest & -> & Ha & Hb)].
      * destruct name as [|b rest]; [done|]. simpl in Hname.
        injection Hname as <- <-.
        exists "", c, b, rest. simpl.
        by rewrite <- lower_ascii_v, <- lower_ascii_w.
      * by exists (String c before), a, b, rest.
    + intros ([|c' before] & a & b & rest & Hname & Ha & Hb); simpl in Hname.
      * injection Hname as -> ->. left.
        rewrite lower_ascii_v. split; [done|]. simpl.
        eexists _, _. split; [done|]. by apply lower_ascii_w.
      * injection Hname as -> ->. right. by exists before, a, b, rest.
Qed.

Lemma processar_nodes_eq id g ns rs :
  fold_left (λ resultados n, processar_node id g n resultados) ns rs =
  rs ++ (if first_edges_pass g
         then replicate (length (List.filter lacks_vw ns)) (record_of id g)
         else []).
Proof.
  revert rs. induction ns as [|n ns IH]; intros rs; simpl.
  - destruct (first_edges_pass g); by rewrite app_nil_r.
  - rewrite IH. unfold processar_node, first_edges_pass.
    destruct (lacks_vw n); [|done].
    destruct (first_edge_lacks_details (downstreamEdges g)); simpl; [|done].
    destruct (first_edge_lacks_details (upstreamEdges g)); simpl; [|done].
    by rewrite <- app_assoc.
Qed.

Lemma processar_linhagem_eq id g rs :
  processar_linhagem id (Some (JLineage g)) rs =
  rs ++ (if first_edges_pass g
         then replicate (length (nodes_lacking_vw g)) (record_of id g)
         else []).
Proof.
  unfold processar_linhagem, nodes_lacking_vw.
  destruct (nodes g) as [[|n ns]|]; simpl default.
  - simpl. destruct (first_edges_pass g); by rewrite app_nil_r.
  - apply processar_nodes_eq.
  - simpl. destruct (first_edges_pass g); by rewrite app_nil_r.
Qed.

Lemma get_lineage_by_id_ok srv id w g :
  srv (requests w) (GET (lineage_url id) None) =
    Response {| status_code := 200; response_json := JLineage g |} →
  get_lineage_by_id srv id w =
  (Return (Some (JLineage g)), sent (GET (lineage_url id) None) w).
Proof.
  intros Hreply. unfold get_lineage_by_id, try_except, bind, send.
  by rewrite Hreply.
Qed.

Lemma filter_nil_Forall (ns : list node) :
  List.filter lacks_vw ns = [] ↔ Forall (λ n, lacks_vw n = false) ns.
Proof.
  induction ns as [|n ns IH]; simpl.
  - split; [constructor|done].
  - destruct (lacks_vw n) eqn:Hn.
    + split; [done|]. intros H. inversion H; congruence.
    + rewrite IH. split; [by constructor|]. intros H. by inversion H.
Qed.

Lemma lacks_vw_false n :
  lacks_vw n = false ↔
  has_vw_ignoring_case (default "" (node_fullyQualifiedName n)).
Proof. unfold lacks_vw. by rewrite negb_false_iff, contains_vw_lower. Qed.

Lemma first_edge_lacks_details_retag details edges :
  first_edge_lacks_details (retag_later details <$> edges) =
  first_edge_lacks_details edges.
Proof. by destruct edges as [[|e es]|]. Qed.

(** ** The claims on stage 3 *)

(** C2, as stated, fails: the graph served for the table [orders] has a
    node named [db.VW_sales], and both files still append records for it,
    one for each of its two other nodes. *)
Lemma graph_with_a_view_is_kept :
  named "db.VW_sales" ∈ default [] (nodes graph_with_a_view) ∧
  has_vw_ignoring_case "db.VW_sales" ∧
  (dag_om.extract_and_save_lineage (serves graph_with_a_view)
     [("arquivos/tabelas/s1.json", [table "orders"])] fresh).1 =
    Return [record_of (PyStr "orders") graph_with_a_view;
            record_of (PyStr "orders") graph_with_a_view] ∧
  (deletarlinhagem.extract_and_save_lineage (serves graph_with_a_view)
     [("s1", [table "orders"])] fresh).1 =
    Return [record_of (PyStr "orders") graph_with_a_view;
            record_of (PyStr "orders") graph_with_a_view].
Proof.
  split; [by left|]. split; [|by split].
  exists "db.", "V"%char, "W"%char, "_sales". auto.
Qed.

(** C2, amended: a fetched graph adds no record exactly when every node's
    qualified name contains "vw" in some mix of cases, or the first
    downstream or the first upstream edge carries [lineageDetails]; a graph
    with a node whose name lacks "vw" is kept, whatever its other nodes
    are called. *)
Theorem graph_dropped_iff_every_node_has_vw id g rs :
  processar_linhagem id (Some (JLineage g)) rs = rs ↔
  Forall (λ n, has_vw_ignoring_case (default "" (node_fullyQualifiedName n)))
         (default [] (nodes g)) ∨
  first_edges_pass g = false.
Proof.
  rewrite processar_linhagem_eq.
  rewrite <- (app_nil_r rs) at 2.
  split.
  - intros Hnone%app_inv_head.
    destruct (first_edges_pass g); [left|by right].
    apply (Forall_impl (λ n, lacks_vw n = false)).
    + apply filter_nil_Forall. apply length_zero_iff_nil.
      unfold nodes_lacking_vw in Hnone.
      by destruct (length _).
    + intros n. apply lacks_vw_false.
  - intros [Hall | ->]; [|done]. f_equal.
    assert (nodes_lacking_vw g = []) as ->.
    { apply filter_nil_Forall. eapply Forall_impl; [exact Hall|].
      intros n. apply lacks_vw_false. }
    by destruct (first_edges_pass g).
Qed.

(** C5: of each edge array only the element at index 0 is tested for
    [lineageDetails]; giving the edges at index 1 and later any
    [lineageDetails], or removing them, changes neither test, nor how many
    records the graph adds for the table. *)
Theorem later_edges_do_not_gate id g down up :
  (∀ e es,
     first_edge_lacks_details (Some (e :: es)) =
     bool_decide (lineageDetails e = None)) ∧
  first_edge_lacks_details (downstreamEdges (retag down up g)) =
    first_edge_lacks_details (downstreamEdges g) ∧
  first_edge_lacks_details (upstreamEdges (retag down up g)) =
    first_edge_lacks_details (upstreamEdges g) ∧
  map fr_id (processar_linhagem id (Some (JLineage (retag down up g))) []) =
    map fr_id (processar_linhagem id (Some (JLineage g)) []).
Proof.
  split; [|split; [|split]].
  - intros e es. simpl. by destruct (lineageDetails e).
  - apply first_edge_lacks_details_retag.
  - apply first_edge_lacks_details_retag.
  - rewrite !processar_linhagem_eq. simpl.
    unfold first_edges_pass, nodes_lacking_vw. simpl.
    rewrite !first_edge_lacks_details_retag.
    destruct (_ && _); [|done].
    induction (length _) as [|k IH]; [done|]. simpl. by f_equal.
Qed.

(** *** The records stay in the artifact *)

Lemma for_each_app {A S} (xs ys : list A) (body : A -> S -> Py S) s w :
  for_each (xs ++ ys) body s w =
  (let* s' := for_each xs body s in for_each ys body s') w.
Proof.
  revert s w. induction xs as [|x xs IH]; intros s w; simpl.
  - done.
  - unfold bind. destruct (body x s w) as [[s'| |] w']; [|done|done].
    rewrite IH. done.
Qed.

Lemma for_each_appends {A X} (xs : list A) (body : A -> list X -> Py (list X)) :
  (∀ x, appends (body x)) → appends (for_each xs body).
Proof.
  intros Hbody. induction xs as [|x xs IH]; intros rs w; simpl.
  - exists [], w. by rewrite app_nil_r.
  - destruct (Hbody x rs w) as (new & w' & Hx).
    destruct (IH (rs ++ new) w') as (new' & w'' & Hxs).
    exists (new ++ new'), w''. unfold bind. by rewrite Hx, Hxs, app_assoc.
Qed.

Lemma processar_item_appends srv item : appends (processar_item srv item).
Proof.
  intros rs w. unfold processar_item.
  destruct (eligible item); [|exists [], w; by rewrite app_nil_r].
  unfold bind, get_lineage_by_id, try_except, bind, send.
  assert (∀ fetched, ∃ new,
            processar_linhagem (entity_id item) fetched rs = rs ++ new) as Hnew.
  { intros [[| |g]|]; try (exists []; by rewrite app_nil_r).
    rewrite processar_linhagem_eq. by eexists. }
  destruct (srv _ _) as [r|].
  - destruct (status_code r =? 200)%Z.
    + destruct (Hnew (Some (response_json r))) as [new Hrs].
      exists new. eexists. unfold ret. by rewrite Hrs.
    + destruct (Hnew None) as [new Hrs].
      exists new. eexists. unfold ret. by rewrite Hrs.
  - destruct (Hnew None) as [new Hrs].
    exists new. eexists. unfold ret. by rewrite Hrs.
Qed.

(** A body that appends [records] makes the loop return them in place. *)
Lemma for_each_keeps {A X} (xs : list A) (body : A -> list X -> Py (list X))
    x (records : list X) :
  (∀ y, appends (body y)) →
  (∀ rs w, ∃ before after w',
     body x rs w = (Return (rs ++ before ++ records ++ after), w')) →
  x ∈ xs →
  ∀ rs w, ∃ before after w',
    for_each xs body rs w = (Return (rs ++ before ++ records ++ after), w').
Proof.
  intros Hbody Hx (xs1 & xs2 & ->)%list_elem_of_split rs w.
  rewrite for_each_app. simpl. unfold bind.
  destruct (for_each_appends xs1 body Hbody rs w) as (new1 & w1 & ->).
  destruct (Hx (rs ++ new1) w1) as (before & after & w2 & ->).
  destruct (for_each_appends xs2 body Hbody
              ((rs ++ new1) ++ before ++ records ++ after) w2)
    as (new2 & w3 & ->).
  exists (new1 ++ before), (after ++ new2), w3.
  by rewrite <- !app_assoc.
Qed.

(** C8: for a table of an eligible type whose graph the catalog serves and
    whose first edges pass, [processar_item] appends the same record
    {id, linhagem} once for every node whose name lacks "vw"; so [k] such
    nodes give [k] equal records, and the list that either file writes as
    the stage-3 artifact holds these [k] records in a row. *)
Theorem extraction_appends_a_record_per_node srv item g :
  eligible item = true →
  (∀ history,
     srv history (GET (lineage_url (entity_id item)) None) =
     Response {| status_code := 200; response_json := JLineage g |}) →
  first_edges_pass g = true →
  let records :=
    replicate (length (nodes_lacking_vw g)) (record_of (entity_id item) g) in
  (∀ rs w, (processar_item srv item rs w).1 = Return (rs ++ records)) ∧
  (∀ files name items w,
     (name, items) ∈ files → endswith name ".json" = true → item ∈ items →
     returns (dag_om.extract_and_save_lineage srv files) w (λ resultados _,
       ∃ before after, resultados = before ++ records ++ after)) ∧
  (∀ tables name items w,
     (name, items) ∈ tables → item ∈ items →
     returns (deletarlinhagem.extract_and_save_lineage srv tables) w (λ resultados _,
       ∃ before after, resultados = before ++ records ++ after)).
Proof.
  intros Heligible Hreply Hedges records.
  assert (∀ rs w, ∃ w',
            processar_item srv item rs w = (Return (rs ++ records), w')) as Hitem.
  { intros rs w. unfold processar_item, bind.
    rewrite Heligible, (get_lineage_by_id_ok _ _ _ _ (Hreply _)).
    unfold ret. rewrite processar_linhagem_eq, Hedges. by eexists. }
  assert (∀ items, item ∈ items → ∀ rs w, ∃ before after w',
            for_each items (processar_item srv) rs w =
            (Return (rs ++ before ++ records ++ after), w')) as Hitems.
  { intros items Hin. apply (for_each_keeps _ _ item); [| |done].
    - apply processar_item_appends.
    - intros rs w. destruct (Hitem rs w) as [w' ->].
      exists [], [], w'. by rewrite app_nil_r. }
  split; [|split].
  - intros rs w. by destruct (Hitem rs w) as [w' ->].
  - intros files name items w Hfile Hjson Hin.
    destruct (for_each_keeps files
                (λ file resultados,
                   if endswith file.1 ".json"
                   then for_each file.2 (processar_item srv) resultados
                   else ret resultados)
                (name, items) records) with (rs := @nil filter_result) (w := w)
      as (before & after & w' & Hrun); [| |done|].
    + intros file. cbn beta. destruct (endswith file.1 ".json").
      * apply for_each_appends, processar_item_appends.
      * intros rs v. exists [], v. by rewrite app_nil_r.
    + intros rs v. cbn beta. cbn [fst snd]. rewrite Hjson. by apply Hitems.
    + exists (before ++ records ++ after), w'. split; [exact Hrun|by eauto].
  - intros tables name items w Hfile Hin.
    destruct (for_each_keeps tables
                (λ file resultados,
                   for_each file.2 (processar_item srv) resultados)
                (name, items) records) with (rs := @nil filter_result) (w := w)
      as (before & after & w' & Hrun); [| |done|].
    + intros file. cbn beta. apply for_each_appends, processar_item_appends.
    + intros rs v. cbn beta. cbn [snd]. by apply Hitems.
    + exists (before ++ records ++ after), w'. split; [exact Hrun|by eauto].
Qed.

Lemma extraction_appends_a_record_per_node_witness :
  let records :=
    replicate (length (nodes_lacking_vw graph_with_a_view))
              (record_of (entity_id (table "orders")) graph_with_a_view) in
  (∀ rs w,
     (processar_item (serves graph_with_a_view) (table "orders") rs w).1 =
     Return (rs ++ records)) ∧
  (∀ files name items w,
     (name, items) ∈ files → endswith name ".json" = true →
     table "orders" ∈ items →
     returns (dag_om.extract_and_save_lineage (serves graph_with_a_view) files) w
       (λ resultados _, ∃ before after, resultados = before ++ records ++ after)) ∧
  (∀ tables name items w,
     (name, items) ∈ tables → table "orders" ∈ items →
     returns (deletarlinhagem.extract_and_save_lineage (serves graph_with_a_view) tables) w
       (λ resultados _, ∃ before after, resultados = before ++ records ++ after)).
Proof.
  apply (extraction_appends_a_record_per_node
           (serves graph_with_a_view) (table "orders") graph_with_a_view).
  - reflexivity.
  - intros history. reflexivity.
  - reflexivity.
Defined.

Example graph_with_a_view_has_two_other_nodes :
  length (nodes_lacking_vw graph_with_a_view) = 2.
Proof. reflexivity. Qed.

(** * Further properties *)

(** ** Stage 4: rows, requests and the processed set *)

Lemma reports_nil srv before : reports srv before [] [].
Proof. split; [done|]. intros i p st Hi. done. Qed.

Lemma reports_snoc srv before new rows a b p :
  reports srv before new rows →
  same_pair (a, b) p →
  reports srv before (new ++ [DELETE (lineage_edge_url a b)])
    (rows ++ [(p, status_of (srv (before ++ new) (DELETE (lineage_edge_url a b))))]).
Proof.
  intros [Hlen Hrows] Hsame. split.
  - rewrite !length_app. simpl. lia.
  - intros i q st Hi.
    apply lookup_snoc_Some in Hi as [[Hlt Hi] | [-> [= <- <-]]].
    + destruct (Hrows i q st Hi) as (a' & b' & Hreq & Hq & ->).
      exists a', b'. split; [|split; [done|]].
      * rewrite lookup_app_l by lia. done.
      * rewrite take_app_le by lia. done.
    + exists a, b. split; [|split; [done|]].
      * rewrite <- Hlen. apply list_lookup_middle. done.
      * rewrite <- Hlen, take_app_length. done.
Qed.

Lemma same_pair_refl p : same_pair p p.
Proof. by left. Qed.

Lemma same_pair_swap a b : same_pair (a, b) (b, a).
Proof. by right. Qed.

Lemma dag_om_trace_start srv w0 : dag_om_trace srv w0 [] w0.
Proof.
  exists []. rewrite app_nil_r. simpl. repeat split; try done.
  symmetry. apply (left_id_L ∅ (∪)).
Qed.

Lemma dag_om_trace_step srv w0 rs w a b row :
  dag_om_trace srv w0 rs w →
  same_pair (a, b) (dag_om.pair_of row) →
  dag_om.status row = status_of (srv (requests w) (DELETE (lineage_edge_url a b))) →
  dag_om_trace srv w0 (rs ++ [row])
    (marked (a, b) (sent (DELETE (lineage_edge_url a b)) w)).
Proof.
  intros (new & Hreq & Hup & HP & Hrep) Hsame Hst.
  exists (new ++ [DELETE (lineage_edge_url a b)]). simpl.
  split; [by rewrite Hreq, app_assoc|]. split; [done|]. split.
  - rewrite HP, omap_app, list_to_set_app_L. simpl.
    rewrite (right_id_L ∅ (∪)), (comm_L (∪) {[(a, b)]}).
    by rewrite <- !(assoc_L (∪)), (comm_L (∪) {[(a, b)]}).
  - rewrite map_app. simpl. unfold dag_om_row at 2. rewrite Hst, Hreq.
    by apply reports_snoc.
Qed.

Lemma dag_om_downstream_edge_trace srv w0 item e rs w :
  dag_om_trace srv w0 rs w →
  returns (dag_om.downstream_edge srv item e rs) w (dag_om_trace srv w0).
Proof.
  intros HI. unfold returns. rewrite dag_om_downstream_edge_eq. simpl.
  destruct (_ && _); [|by eauto].
  eexists _, _. split; [done|].
  apply dag_om_trace_step; [done|apply same_pair_refl|done].
Qed.

Lemma dag_om_upstream_edge_trace srv w0 item e rs w :
  dag_om_trace srv w0 rs w →
  returns (dag_om.upstream_edge srv item e rs) w (dag_om_trace srv w0).
Proof.
  intros HI. unfold returns. rewrite dag_om_upstream_edge_eq. simpl.
  destruct (_ && _); [|by eauto].
  eexists _, _. split; [done|].
  apply dag_om_trace_step; [done|apply same_pair_swap|done].
Qed.

Lemma dag_om_delete_lineage_traced srv data w :
  returns (dag_om.delete_lineage srv data) w (dag_om_trace srv w).
Proof.
  apply for_each_invariant; [|apply dag_om_trace_start].
  intros item rs v HI. unfold dag_om.delete_item.
  eapply returns_bind.
  - apply for_each_invariant; [|exact HI].
    intros. by apply dag_om_downstream_edge_trace.
  - intros rs' v' HI'. apply for_each_invariant; [|exact HI'].
    intros. by apply dag_om_upstream_edge_trace.
Qed.




(** ** Stage 4 of the DAG: what the processed set does to a run *)

Lemma returns_and {A} (m : Py A) w (Q R : A -> world -> Prop) :
  returns m w Q → returns m w R → returns m w (λ a w', Q a w' ∧ R a w').
Proof.
  intros (a & w' & Hm & HQ) (b & v' & Hm' & HR).
  rewrite Hm in Hm'. injection Hm' as <- <-. by exists a, w'.
Qed.

Lemma covered_mono pairs pairs' p :
  pairs ⊆ pairs' → covered pairs p → covered pairs' p.
Proof. intros Hsub [Hp|Hp]; [left|right]; by apply Hsub. Qed.

Lemma attempted_cons T other_end e edges :
  attempted T other_end (e :: edges) =
  (if truthy T && truthy (get (other_end e))
   then [(T, get (other_end e))] else []) ++
  attempted T other_end edges.
Proof. unfold attempted. simpl. by destruct (_ && _). Qed.

(** The guard of the DAG passes exactly for an uncovered pair of truthy
    ids. *)
Lemma dag_om_guard T X pairs :
  truthy T && truthy X &&
    (negb (bool_decide ((T, X) ∈ pairs)) && negb (bool_decide ((X, T) ∈ pairs)))
  = true ↔
  truthy T && truthy X = true ∧ ¬ covered pairs (T, X).
Proof.
  unfold covered. simpl.
  rewrite !andb_true_iff, !negb_true_iff, !bool_decide_eq_false. tauto.
Qed.

(** After the loop over [edges], the set has grown and covers the pair of
    every edge with truthy ids. *)
Lemma dag_om_downstream_edges_cover srv item edges rs w :
  returns (for_each edges (dag_om.downstream_edge srv item) rs) w (λ _ w',
    processed_lineage_pairs w ⊆ processed_lineage_pairs w' ∧
    ∀ p, p ∈ attempted (fr_id item) toEntity edges →
         covered (processed_lineage_pairs w') p).
Proof.
  apply (for_each_progress (λ seen _ w',
    processed_lineage_pairs w ⊆ processed_lineage_pairs w' ∧
    ∀ p, p ∈ attempted (fr_id item) toEntity seen →
         covered (processed_lineage_pairs w') p)).
  - intros seen e rs' v [Hsub Hcov]. unfold returns.
    rewrite dag_om_downstream_edge_eq. simpl.
    destruct (_ && _ && _) eqn:Hguard.
    + eexists _, _. split; [done|]. simpl. split.
      * etrans; [exact Hsub|]. apply union_subseteq_r.
      * intros p. rewrite attempted_snoc, elem_of_app.
        apply dag_om_guard in Hguard as [-> _].
        intros [Hp | ->%list_elem_of_singleton].
        -- eapply covered_mono; [apply union_subseteq_r|by apply Hcov].
        -- left. simpl. by apply elem_of_union_l, elem_of_singleton.
    + assert (truthy (fr_id item) && truthy (get (toEntity e)) = true →
              covered (processed_lineage_pairs v) (fr_id item, get (toEntity e)))
        as Hskip.
      { intros Hids.
        destruct (decide (covered (processed_lineage_pairs v)
                            (fr_id item, get (toEntity e)))) as [Hc|Hc]; [done|].
        assert (true = false) as Habs; [|done].
        rewrite <- Hguard. symmetry. by apply dag_om_guard. }
      eexists _, _. split; [done|]. split; [done|].
      intros p. rewrite attempted_snoc, elem_of_app.
      intros [Hp | Hp]; [by apply Hcov|].
      destruct (truthy _ && truthy _); [|by apply elem_of_nil in Hp].
      apply list_elem_of_singleton in Hp as ->. by apply Hskip.
  - split; [done|]. intros p Hp. by apply elem_of_nil in Hp.
Qed.

Lemma dag_om_upstream_edges_cover srv item edges rs w :
  returns (for_each edges (dag_om.upstream_edge srv item) rs) w (λ _ w',
    processed_lineage_pairs w ⊆ processed_lineage_pairs w' ∧
    ∀ p, p ∈ attempted (fr_id item) fromEntity edges →
         covered (processed_lineage_pairs w') p).
Proof.
  apply (for_each_progress (λ seen _ w',
    processed_lineage_pairs w ⊆ processed_lineage_pairs w' ∧
    ∀ p, p ∈ attempted (fr_id item) fromEntity seen →
         covered (processed_lineage_pairs w') p)).
  - intros seen e rs' v [Hsub Hcov]. unfold returns.
    rewrite dag_om_upstream_edge_eq. simpl.
    destruct (_ && _ && _) eqn:Hguard.
    + eexists _, _. split; [done|]. simpl. split.
      * etrans; [exact Hsub|]. apply union_subseteq_r.
      * intros p. rewrite attempted_snoc, elem_of_app.
        apply dag_om_guard in Hguard as [-> _].
        intros [Hp | ->%list_elem_of_singleton].
        -- eapply covered_mono; [apply union_subseteq_r|by apply Hcov].
        -- right. simpl. by apply elem_of_union_l, elem_of_singleton.
    + assert (truthy (fr_id item) && truthy (get (fromEntity e)) = true →
              covered (processed_lineage_pairs v) (fr_id item, get (fromEntity e)))
        as Hskip.
      { intros Hids.
        destruct (decide (covered (processed_lineage_pairs v)
                            (fr_id item, get (fromEntity e)))) as [Hc|Hc]; [done|].
        assert (true = false) as Habs; [|done].
        rewrite <- Hguard. symmetry. by apply dag_om_guard. }
      eexists _, _. split; [done|]. split; [done|].
      intros p. rewrite attempted_snoc, elem_of_app.
      intros [Hp | Hp]; [by apply Hcov|].
      destruct (truthy _ && truthy _); [|by apply elem_of_nil in Hp].
      apply list_elem_of_singleton in Hp as ->. by apply Hskip.
  - split; [done|]. intros p Hp. by apply elem_of_nil in Hp.
Qed.

Lemma dag_om_delete_lineage_covers srv data w :
  returns (dag_om.delete_lineage srv data) w (λ _ w',
    processed_lineage_pairs w ⊆ processed_lineage_pairs w' ∧
    ∀ p, p ∈ flat_map attempts data → covered (processed_lineage_pairs w') p).
Proof.
  apply (for_each_progress (λ seen _ w',
    processed_lineage_pairs w ⊆ processed_lineage_pairs w' ∧
    ∀ p, p ∈ flat_map attempts seen → covered (processed_lineage_pairs w') p)).
  - intros seen item rs v [Hsub Hcov]. unfold dag_om.delete_item.
    eapply returns_bind; [apply dag_om_downstream_edges_cover|].
    intros rs1 v1 [Hsub1 Hcov1]. simpl in *.
    eapply returns_weaken; [apply dag_om_upstream_edges_cover|].
    intros rs2 v2 [Hsub2 Hcov2]. simpl in *. split.
    + by repeat (etrans; [eassumption|]).
    + intros p. rewrite flat_map_app, elem_of_app. simpl.
      rewrite app_nil_r. unfold attempts. rewrite elem_of_app.
      intros [Hp | [Hp | Hp]].
      * eapply covered_mono; [|by apply Hcov]. by etrans.
      * eapply covered_mono; [exact Hsub2|by apply Hcov1].
      * by apply Hcov2.
  - split; [done|]. intros p Hp. by apply elem_of_nil in Hp.
Qed.

(** Edges whose pairs are all covered leave the rows and the world alone. *)
Lemma dag_om_downstream_edges_skip srv item edges rs w :
  (∀ p, p ∈ attempted (fr_id item) toEntity edges →
        covered (processed_lineage_pairs w) p) →
  for_each edges (dag_om.downstream_edge srv item) rs w = (Return rs, w).
Proof.
  induction edges as [|e edges IH]; intros Hcov; [done|].
  simpl. unfold bind. rewrite dag_om_downstream_edge_eq. simpl.
  destruct (_ && _ && _) eqn:Hguard.
  - apply dag_om_guard in Hguard as [Hids Hnot]. destruct Hnot.
    apply Hcov. rewrite attempted_cons, Hids. by left.
  - apply IH. intros p Hp. apply Hcov.
    rewrite attempted_cons, elem_of_app. by right.
Qed.

Lemma dag_om_upstream_edges_skip srv item edges rs w :
  (∀ p, p ∈ attempted (fr_id item) fromEntity edges →
        covered (processed_lineage_pairs w) p) →
  for_each edges (dag_om.upstream_edge srv item) rs w = (Return rs, w).
Proof.
  induction edges as [|e edges IH]; intros Hcov; [done|].
  simpl. unfold bind. rewrite dag_om_upstream_edge_eq. simpl.
  destruct (_ && _ && _) eqn:Hguard.
  - apply dag_om_guard in Hguard as [Hids Hnot]. destruct Hnot.
    apply Hcov. rewrite attempted_cons, Hids. by left.
  - apply IH. intros p Hp. apply Hcov.
    rewrite attempted_cons, elem_of_app. by right.
Qed.

Lemma dag_om_delete_lineage_skip srv data rs w :
  (∀ p, p ∈ flat_map attempts data → covered (processed_lineage_pairs w) p) →
  for_each data (dag_om.delete_item srv) rs w = (Return rs, w).
Proof.
  induction data as [|item data IH]; intros Hcov; [done|].
  simpl. unfold bind, dag_om.delete_item at 1, bind.
  rewrite dag_om_downstream_edges_skip, dag_om_upstream_edges_skip.
  - apply IH. intros p Hp. apply Hcov. simpl. rewrite elem_of_app. by right.
  - intros p Hp. apply Hcov. simpl. unfold attempts.
    rewrite !elem_of_app. auto.
  - intros p Hp. apply Hcov. simpl. unfold attempts.
    rewrite !elem_of_app. auto.
Qed.

(** X3: [processed_lineage_pairs] is a module-level set, so a second call
    of [dag_om.delete_lineage] on the same artifact in the same process
    finds every pair processed: whatever the catalog, it returns no row,
    sends no request and changes nothing. *)
Theorem dag_om_delete_lineage_second_run_is_empty srv data w :
  returns (dag_om.delete_lineage srv data) w (λ _ w',
    ∀ srv', dag_om.delete_lineage srv' data w' = (Return [], w')).
Proof.
  eapply returns_weaken; [apply dag_om_delete_lineage_covers|].
  intros rs w' [_ Hcov] srv'. by apply dag_om_delete_lineage_skip.
Qed.

Lemma same_pair_swapped p q : same_pair (p.2, p.1) q → same_pair p q.
Proof.
  destruct p as [a b], q as [c d]. unfold same_pair. simpl.
  intros [H|H]; inversion H; subst; auto.
Qed.

(** Every pair the run added to the set is the pair of a row. *)
Lemma dag_om_trace_new_pair srv w0 rs w q :
  dag_om_trace srv w0 rs w →
  q ∈ processed_lineage_pairs w →
  q ∈ processed_lineage_pairs w0 ∨
  ∃ row, row ∈ rs ∧ same_pair (dag_om.pair_of row) q.
Proof.
  intros (new & _ & _ & HP & Hlen & Hrows). rewrite HP, elem_of_union.
  intros [Hq | Hq]; [right|by left].
  apply elem_of_list_to_set, list_elem_of_omap in Hq as (req & Hreq & Hcall).
  apply list_elem_of_lookup_1 in Hreq as [i Hi].
  assert (is_Some (map dag_om_row rs !! i)) as [[p st] Hrow].
  { apply lookup_lt_is_Some. rewrite <- Hlen. by eapply lookup_lt_Some. }
  destruct (Hrows i p st Hrow) as (a & b & Hreq & Hsame & _).
  rewrite Hi in Hreq. injection Hreq as ->. simpl in Hcall.
  injection Hcall as <-.
  rewrite list_lookup_fmap in Hrow.
  destruct (rs !! i) as [row|] eqn:Hrs; [|done].
  injection Hrow as <- _.
  exists row. split; [by eapply list_elem_of_lookup_2|].
  by apply same_pair_sym.
Qed.

(** X4: no edge is passed over in silence: after [dag_om.delete_lineage],
    every edge of the artifact whose two ids are truthy either had its pair
    in [processed_lineage_pairs] before the run, or has a row for its
    unordered pair. *)
Theorem dag_om_delete_lineage_leaves_no_edge_out srv data w :
  returns (dag_om.delete_lineage srv data) w (λ rs _,
    ∀ p, p ∈ flat_map attempts data →
         covered (processed_lineage_pairs w) p ∨
         ∃ row, row ∈ rs ∧ same_pair (dag_om.pair_of row) p).
Proof.
  eapply returns_weaken.
  - apply returns_and;
      [apply dag_om_delete_lineage_covers | apply dag_om_delete_lineage_traced].
  - intros rs w' [[_ Hcov] Htrace] p Hp. simpl in *.
    destruct (Hcov p Hp) as [Hq | Hq];
      destruct (dag_om_trace_new_pair _ _ _ _ _ Htrace Hq)
        as [Hold | (row & Hrow & Hsame)].
    + left. by left.
    + right. by exists row.
    + left. by right.
    + right. exists row. split; [done|].
      apply same_pair_sym, same_pair_swapped, same_pair_sym. done.
Qed.

Lemma dag_om_rows_sublist srv data w :
  returns (dag_om.delete_lineage srv data) w (λ rs _,
    map dag_om.pair_of rs `sublist_of` flat_map attempts data).
Proof.
  apply (for_each_progress (λ seen rs _,
    map dag_om.pair_of rs `sublist_of` flat_map attempts seen)); [|done].
  intros seen item rs v Hrs. unfold dag_om.delete_item.
  eapply returns_bind.
  - apply (for_each_progress (λ done rs' _,
      map dag_om.pair_of rs' `sublist_of`
      flat_map attempts seen ++ attempted (fr_id item) toEntity done)).
    + intros done e rs' v' Hrs'. unfold returns.
      rewrite dag_om_downstream_edge_eq, attempted_snoc. simpl.
      destruct (truthy _ && truthy _); simpl.
      * destruct (_ && _); eexists _, _; (split; [done|]).
        -- rewrite map_app, app_assoc. by apply sublist_app.
        -- rewrite app_assoc. by apply sublist_inserts_r.
      * eexists _, _. split; [done|]. by rewrite app_nil_r.
    + by rewrite app_nil_r.
  - intros rs1 v1 Hrs1. simpl in Hrs1.
    eapply returns_weaken.
    + apply (for_each_progress (λ done rs' _,
        map dag_om.pair_of rs' `sublist_of`
        (flat_map attempts seen ++
         attempted (fr_id item) toEntity
           (default [] (downstreamEdges (linhagem item)))) ++
        attempted (fr_id item) fromEntity done)).
      * intros done e rs' v' Hrs'. unfold returns.
        rewrite dag_om_upstream_edge_eq, attempted_snoc. simpl.
        destruct (truthy _ && truthy _); simpl.
        -- destruct (_ && _); eexists _, _; (split; [done|]).
           ++ rewrite map_app, app_assoc. by apply sublist_app.
           ++ rewrite app_assoc. by apply sublist_inserts_r.
        -- eexists _, _. split; [done|]. by rewrite app_nil_r.
      * by rewrite app_nil_r.
    + intros rs2 v2 Hrs2. simpl in Hrs2.
      rewrite flat_map_app. simpl. rewrite app_nil_r. unfold attempts.
      by rewrite app_assoc.
Qed.

(** X5: the rows of the DAG are rows the script would write, in the same
    order: their pairs are a sublist of the (table, other end) pairs of the
    edges with truthy ids, downstream before upstream, table by table.  In
    particular no row has a falsy id. *)
Theorem dag_om_rows_are_a_sublist_of_the_edges srv data w :
  returns (dag_om.delete_lineage srv data) w (λ rs _,
    map dag_om.pair_of rs `sublist_of` flat_map attempts data).
Proof. apply dag_om_rows_sublist. Qed.

(** ** Stage 3: what the extraction sends and what it keeps *)

Lemma for_each_invariant_in {A S} (I : S -> world -> Prop) (xs : list A)
    (body : A -> S -> Py S) :
  (∀ x s w, x ∈ xs → I s w → returns (body x s) w I) →
  ∀ s w, I s w → returns (for_each xs body s) w I.
Proof.
  induction xs as [|x xs IH]; intros Hbody s w HI; simpl.
  - by apply returns_ret.
  - eapply returns_bind.
    + apply Hbody; [by left | done].
    + intros s' w' HI'. apply IH; [|done].
      intros y t v Hy. apply Hbody. by right.
Qed.

Lemma get_lineage_by_id_eq srv id w :
  get_lineage_by_id srv id w =
  (Return (fetched (srv (requests w) (GET (lineage_url id) None))),
   sent (GET (lineage_url id) None) w).
Proof.
  unfold get_lineage_by_id, try_except, bind, send, fetched.
  destruct (srv _ _) as [r|]; [|done].
  by destruct (status_code r =? 200)%Z.
Qed.

Lemma processar_item_eq srv item rs w :
  processar_item srv item rs w =
  if eligible item
  then (Return (processar_linhagem (entity_id item)
                  (fetched (srv (requests w) (lineage_request item))) rs),
        sent (lineage_request item) w)
  else (Return rs, w).
Proof.
  unfold processar_item. destruct (eligible item); [|done].
  unfold bind. by rewrite get_lineage_by_id_eq.
Qed.




Lemma processar_item_keeps srv item (Q : filter_result -> Prop) rs w :
  (∀ r, record_from srv item r → Q r) →
  Forall Q rs →
  returns (processar_item srv item rs) w (λ rs' _, Forall Q rs').
Proof.
  intros HQ Hrs. unfold returns. rewrite processar_item_eq.
  destruct (eligible item) eqn:Heligible; [|by eauto].
  eexists _, _. split; [done|].
  destruct (fetched _) as [[| |g]|] eqn:Hfetched; try done.
  rewrite processar_linhagem_eq. apply Forall_app. split; [done|].
  destruct (first_edges_pass g) eqn:Hedges; [|done].
  apply Forall_forall. intros r [-> Hk]%elem_of_replicate.
  apply HQ. split; [done|]. split; [done|]. split; [done|]. split.
  - unfold nodes_lacking_vw in Hk.
    destruct (List.filter lacks_vw (default [] (nodes g))) as [|n ns] eqn:Hns;
      [done|].
    assert (In n (List.filter lacks_vw (default [] (nodes g)))) as Hin
      by (rewrite Hns; by left).
    apply filter_In in Hin as [Hin Hn].
    exists n. split; [by apply list_elem_of_In|done].
  - by exists (requests w).
Qed.

Lemma processar_items_keep srv items (Q : filter_result -> Prop) rs w :
  (∀ item r, item ∈ items → record_from srv item r → Q r) →
  Forall Q rs →
  returns (for_each items (processar_item srv) rs) w (λ rs' _, Forall Q rs').
Proof.
  intros HQ Hrs.
  apply (for_each_invariant_in (λ rs' _, Forall Q rs')); [|done].
  intros item rs' v Hin Hrs'. apply processar_item_keeps; [|done].
  intros r. by apply HQ.
Qed.

Lemma dag_om_extraction_kept srv files w :
  returns (dag_om.extract_and_save_lineage srv files) w (λ rs _,
    Forall (λ r, ∃ file item,
              file ∈ files ∧ endswith file.1 ".json" = true ∧
              item ∈ file.2 ∧ record_from srv item r) rs).
Proof.
  apply (for_each_invariant_in (λ rs _,
    Forall (λ r, ∃ file item,
              file ∈ files ∧ endswith file.1 ".json" = true ∧
              item ∈ file.2 ∧ record_from srv item r) rs)); [|done].
  intros file rs v Hfile Hrs. cbn beta.
  destruct (endswith file.1 ".json") eqn:Hjson; [|by apply returns_ret].
  apply processar_items_keep; [|done].
  intros item r Hitem Hr. by exists file, item.
Qed.

Lemma script_extraction_kept srv tables w :
  returns (deletarlinhagem.extract_and_save_lineage srv tables) w (λ rs _,
    Forall (λ r, ∃ file item,
              file ∈ tables ∧ item ∈ file.2 ∧ record_from srv item r) rs).
Proof.
  apply (for_each_invariant_in (λ rs _,
    Forall (λ r, ∃ file item,
              file ∈ tables ∧ item ∈ file.2 ∧ record_from srv item r) rs));
    [|done].
  intros file rs v Hfile Hrs. cbn beta.
  apply processar_items_keep; [|done].
  intros item r Hitem Hr. by exists file, item.
Qed.

(** X8: every record of the artifact that stage 3 of the DAG returns comes
    from a table of an eligible type listed in an object whose name ends in
    [.json]; it carries the id of that table and a graph that the catalog
    served with status 200 for it, whose first edges pass and which has a
    node lacking "vw".  So a table of another type, a failed fetch or a
    graph without such a node leaves no record. *)
Theorem dag_om_extraction_keeps_only_filtered_graphs srv files w :
  returns (dag_om.extract_and_save_lineage srv files) w (λ rs _,
    Forall (λ r, ∃ file item,
              file ∈ files ∧ endswith file.1 ".json" = true ∧
              item ∈ file.2 ∧ record_from srv item r) rs).
Proof. apply dag_om_extraction_kept. Qed.

(** X9: the same for the script, which reads the file of every schema. *)
Theorem script_extraction_keeps_only_filtered_graphs srv tables w :
  returns (deletarlinhagem.extract_and_save_lineage srv tables) w (λ rs _,
    Forall (λ r, ∃ file item,
              file ∈ tables ∧ item ∈ file.2 ∧ record_from srv item r) rs).
Proof. apply script_extraction_kept. Qed.

(** X10: the test ['vw' not in node.get('fullyQualifiedName', '').lower()]
    fails exactly for a node that has the key and whose name holds the
    letters v and w next to each other in any mix of cases; a node without
    the key passes. *)
Theorem vw_test_ignores_case n :
  lacks_vw n = false ↔
  ∃ name, node_fullyQualifiedName n = Some name ∧ has_vw_ignoring_case name.
Proof.
  rewrite lacks_vw_false. destruct n as [[name|]]; simpl.
  - split; [by eauto|]. by intros (? & [= <-] & ?).
  - split; [|by intros (? & ? & _)].
    intros ([|c before] & a & b & rest & H & _); done.
Qed.

(** ** Stage 1: a failure on a later page *)

Lemma replays_at consumed r rest history req :
  length history = length consumed →
  replays (consumed ++ r :: rest) history req = r.
Proof.
  intros Hlen. unfold replays. by rewrite Hlen, list_lookup_middle.
Qed.

Lemma fetch_schemas_loop_fails srv fuel after result w e :
  schema_turn_fails (srv (requests w) (schemas_request after)) = Some e →
  fetch_schemas_loop srv (S fuel) after result w =
  (Raise e, sent (schemas_request after) w).
Proof.
  simpl. unfold bind, get_data, bind, send, schemas_request, schema_turn_fails.
  destruct (srv _ _) as [[code body]|]; simpl; [|by intros [= <-]].
  destruct (code =? 200)%Z; simpl; [|by intros [= <-]].
  destruct body as [|[items [pg|]]|g]; simpl; try done; by intros [= <-].
Qed.

Lemma fetch_schemas_loop_replay_fails consumed pages bad e :
  Forall (λ p, is_Some (cursor p)) pages →
  schema_turn_fails bad = Some e →
  ∀ fuel after result w,
    length (requests w) = length consumed →
    length pages < fuel →
    let run := fetch_schemas_loop (replays (consumed ++ map ok pages ++ [bad]))
                 fuel after result w in
    run.1 = Raise e ∧
    requests run.2 =
      requests w ++ paged_requests databaseSchemas_url after pages.
Proof.
  intros Hpages Hbad. revert consumed.
  induction Hpages as [|p pages [c Hc] _ IH];
    intros consumed fuel after result w Hlen Hfuel;
    (destruct fuel as [|fuel]; [simpl in Hfuel; lia|]).
  - cbn zeta. rewrite (fetch_schemas_loop_fails _ _ _ _ _ e).
    + done.
    + simpl. by rewrite replays_at.
  - cbn zeta.
    rewrite (fetch_schemas_loop_next _ _ _ _ _ p c);
      [|simpl; by rewrite replays_at|done].
    specialize (IH (consumed ++ [ok p]) fuel c
                   (result ++ map fullyQualifiedName (data p))
                   (sent (schemas_request after) w)).
    cbn zeta in IH. rewrite <- app_assoc in IH. simpl in IH.
    destruct IH as [Hrun Hreq].
    { rewrite !length_app. simpl. lia. }
    { simpl in Hfuel. lia. }
    split; [exact Hrun|].
    etrans; [exact Hreq|].
    unfold paged_requests. simpl. rewrite Hc. simpl.
    by rewrite <- app_assoc.
Qed.

(** X11: [fetch_schemas] keeps nothing of a listing that fails part-way:
    when the catalog serves pages that carry a cursor and then a reply on
    which a turn of the loop fails (the transport raises, the status is not
    200, the document has no ['data'] or no ['paging']), the call raises
    that exception after one request per reply, and the names of the pages
    read so far are not returned. *)
Theorem fetch_schemas_raises_on_a_later_page pages bad e fuel :
  Forall (λ p, is_Some (cursor p)) pages →
  schema_turn_fails bad = Some e →
  length pages < fuel →
  (fetch_schemas (replays (map ok pages ++ [bad])) fuel fresh).1 = Raise e ∧
  requests (fetch_schemas (replays (map ok pages ++ [bad])) fuel fresh).2 =
    paged_requests databaseSchemas_url PyNone pages.
Proof.
  intros Hpages Hbad Hfuel.
  apply (fetch_schemas_loop_replay_fails [] pages bad e Hpages Hbad
           fuel PyNone [] fresh); [done|done].
Qed.

Lemma fetch_schemas_raises_on_a_later_page_witness :
  (fetch_schemas
     (replays (map ok [schemas_page ["db.s1"] (Some (PyStr "c1"))] ++
               [Response {| status_code := 503; response_json := JNull |}]))
     2 fresh).1 = Raise (StatusException 503) ∧
  requests
    (fetch_schemas
       (replays (map ok [schemas_page ["db.s1"] (Some (PyStr "c1"))] ++
                 [Response {| status_code := 503; response_json := JNull |}]))
       2 fresh).2 =
    paged_requests databaseSchemas_url PyNone
      [schemas_page ["db.s1"] (Some (PyStr "c1"))].
Proof.
  apply (fetch_schemas_raises_on_a_later_page
           [schemas_page ["db.s1"] (Some (PyStr "c1"))]
           (Response {| status_code := 503; response_json := JNull |})
           (StatusException 503) 2).
  - repeat constructor. simpl. eexists. reflexivity.
  - reflexivity.
  - simpl. lia.
Defined.

(** ** Stage 2: the table loop *)

Lemma sent_sent_all r new w : sent_all new (sent r w) = sent_all (r :: new) w.
Proof. unfold sent_all, sent. simpl. by rewrite <- app_assoc. Qed.

Lemma sent_all_nil w : sent_all [] w = w.
Proof. destruct w. unfold sent_all. simpl. by rewrite app_nil_r. Qed.

Lemma create_table_files_loop_next srv fuel u after acc w p c :
  srv (requests w) (GET u (cursor_params after)) = ok p →
  cursor p = Some c →
  create_table_files_loop srv (S fuel) u after acc w =
  create_table_files_loop srv fuel u c (acc ++ data p)
                          (sent (GET u (cursor_params after)) w).
Proof.
  intros Hreply Hc. simpl. unfold bind at 1.
  rewrite (get_data_ok _ _ _ _ _ Hreply).
  unfold cursor in Hc. destruct p as [items [[o]|]]; simpl in *; [|done].
  by subst o.
Qed.

Lemma create_table_files_loop_ends srv fuel u after acc w content :
  ends_listing (srv (requests w) (GET u (cursor_params after))) = Some content →
  create_table_files_loop srv (S fuel) u after acc w =
  (Return (acc ++ content), sent (GET u (cursor_params after)) w).
Proof.
  simpl. unfold bind, get_data, bind, send, ends_listing, cursor.
  destruct (srv _ _) as [[code body]|]; simpl; [|done].
  destruct (code =? 200)%Z; simpl; [|done].
  destruct body as [|[items [[[c|]]|]]|g]; simpl; try done;
    intros [= <-]; by rewrite ?app_nil_r.
Qed.

Lemma create_table_files_loop_replay consumed pages last tail content u :
  Forall (λ p, is_Some (cursor p)) pages →
  ends_listing last = Some content →
  ∀ fuel after acc w,
    length (requests w) = length consumed →
    length pages < fuel →
    create_table_files_loop
      (replays (consumed ++ (map ok pages ++ [last]) ++ tail)) fuel u after acc w =
    (Return (acc ++ concat (map data pages) ++ content),
     sent_all (paged_requests u after pages) w).
Proof.
  intros Hpages Hlast. revert consumed.
  induction Hpages as [|p pages [c Hc] _ IH];
    intros consumed fuel after acc w Hlen Hfuel;
    (destruct fuel as [|fuel]; [simpl in Hfuel; lia|]).
  - rewrite (create_table_files_loop_ends _ _ _ _ _ _ content).
    + done.
    + simpl. by rewrite replays_at.
  - rewrite (create_table_files_loop_next _ _ _ _ _ _ p c);
      [|simpl; by rewrite replays_at|done].
    specialize (IH (consumed ++ [ok p]) fuel c (acc ++ data p)
                   (sent (GET u (cursor_params after)) w)).
    rewrite <- app_assoc in IH. simpl in IH. simpl.
    rewrite IH.
    + rewrite sent_sent_all. unfold paged_requests. simpl. rewrite Hc. simpl.
      by rewrite <- !app_assoc.
    + rewrite !length_app. simpl. lia.
    + simpl in Hfuel. lia.
Qed.

Lemma create_table_files_replay fuel listings :
  Forall (well_listed fuel) listings →
  ∀ consumed script w,
    script = consumed ++ flat_map listing_replies listings →
    length (requests w) = length consumed →
    create_table_files (replays script) fuel (map schema listings) w =
    (Return tt,
     {| requests := requests w ++ flat_map listing_requests listings;
        processed_lineage_pairs := processed_lineage_pairs w;
        uploads :=
          uploads w ++
          map (λ l, (table_object (schema l), listing_content l)) listings |}).
Proof.
  unfold create_table_files.
  induction 1 as [|l listings (Hpages & [content Hlast] & Hfuel) _ IH];
    intros consumed script w -> Hlen.
  - simpl. unfold ret. destruct w. simpl. by rewrite !app_nil_r.
  - cbn [map for_each flat_map]. unfold bind at 1. unfold bind at 1.
    unfold listing_replies at 1.
    rewrite (create_table_files_loop_replay consumed (cursor_pages l) (closing l)
               _ content) by done.
    unfold upload.
    rewrite (IH (consumed ++ listing_replies l)).
    + f_equal. unfold uploaded, sent_all, listing_content. simpl.
      rewrite Hlast. simpl. unfold listing_requests at 2.
      by rewrite <- !app_assoc.
    + unfold listing_replies. by rewrite <- !app_assoc.
    + unfold uploaded, sent_all, paged_requests, listing_replies. simpl.
      rewrite !length_app, !length_map. simpl. rewrite !length_map. lia.
Qed.

(** X12: stage 2 on a catalog that serves, schema after schema, pages with
    a cursor and then a closing reply (a page whose paging has no
    ['after'], a page without ['paging'], or a falsy document): given fuel
    for the longest listing, [create_table_files] returns after one request
    per reply, each with the cursor of the page before it, and has uploaded
    one object per schema, in order, named [arquivos/tabelas/<schema>.json]
    and holding the items of all pages of that schema in page order. *)
Theorem create_table_files_uploads_every_listing fuel listings :
  Forall (well_listed fuel) listings →
  create_table_files (replays (flat_map listing_replies listings)) fuel
    (map schema listings) fresh =
  (Return tt,
   {| requests := flat_map listing_requests listings;
      processed_lineage_pairs := ∅;
      uploads := map (λ l, (table_object (schema l), listing_content l)) listings |}).
Proof.
  intros Hlistings.
  by rewrite (create_table_files_replay fuel listings Hlistings [] _ fresh).
Qed.

Lemma create_table_files_uploads_every_listing_witness :
  create_table_files
    (replays (flat_map listing_replies
       [ {| schema := "s1";
            cursor_pages := [tables_page ["a"; "b"] (Some (PyStr "c1"))];
            closing := ok (tables_page ["c"] None) |};
         {| schema := "s2"; cursor_pages := [];
            closing := Response {| status_code := 200; response_json := JNull |} |} ]))
    2
    (map schema
       [ {| schema := "s1";
            cursor_pages := [tables_page ["a"; "b"] (Some (PyStr "c1"))];
            closing := ok (tables_page ["c"] None) |};
         {| schema := "s2"; cursor_pages := [];
            closing := Response {| status_code := 200; response_json := JNull |} |} ])
    fresh =
  (Return tt,
   {| requests := flat_map listing_requests
        [ {| schema := "s1";
             cursor_pages := [tables_page ["a"; "b"] (Some (PyStr "c1"))];
             closing := ok (tables_page ["c"] None) |};
          {| schema := "s2"; cursor_pages := [];
             closing := Response {| status_code := 200; response_json := JNull |} |} ];
      processed_lineage_pairs := ∅;
      uploads := map (λ l, (table_object (schema l), listing_content l))
        [ {| schema := "s1";
             cursor_pages := [tables_page ["a"; "b"] (Some (PyStr "c1"))];
             closing := ok (tables_page ["c"] None) |};
          {| schema := "s2"; cursor_pages := [];
             closing := Response {| status_code := 200; response_json := JNull |} |} ] |}).
Proof.
  apply (create_table_files_uploads_every_listing 2).
  repeat constructor; simpl; try lia; eexists; reflexivity.
Defined.

Example create_table_files_two_schemas :
  create_table_files
    (replays [ok (tables_page ["a"; "b"] (Some (PyStr "c1")));
              ok (tables_page ["c"] None);
              Response {| status_code := 200; response_json := JNull |}])
    2 ["s1"; "s2"] fresh =
  (Return tt,
   {| requests := [GET (tables_url "s1") None;
                   GET (tables_url "s1") (Some (PyStr "c1"));
                   GET (tables_url "s2") None];
      processed_lineage_pairs := ∅;
      uploads := [("arquivos/tabelas/s1.json", [table "a"; table "b"; table "c"]);
                  ("arquivos/tabelas/s2.json", [])] |}).
Proof. reflexivity. Qed.

Lemma get_data_world srv u after w :
  (get_data srv u after w).2 = sent (GET u (cursor_params after)) w.
Proof.
  unfold get_data, bind, send. destruct (srv _ _) as [r|]; [|done].
  by destruct (status_code r =? 200)%Z.
Qed.

(** The table loop uploads nothing and leaves the set alone. *)
Lemma create_table_files_loop_world srv fuel u after acc w :
  uploads (create_table_files_loop srv fuel u after acc w).2 = uploads w ∧
  processed_lineage_pairs (create_table_files_loop srv fuel u after acc w).2 =
    processed_lineage_pairs w.
Proof.
  revert after acc w. induction fuel as [|fuel IH]; intros after acc w; [done|].
  simpl. unfold bind.
  pose proof (get_data_world srv u after w) as Hw.
  destruct (get_data srv u after w) as [[[|p|g]| |] w']; simpl in Hw; subst w';
    try done.
  destruct (paging p) as [[[c|]]|]; try done.
  destruct (IH c (acc ++ data p) (sent (GET u (cursor_params after)) w))
    as [-> ->]. done.
Qed.

Lemma create_table_files_cons srv fuel name names w :
  create_table_files srv fuel (name :: names) w =
  match create_table_files_loop srv fuel (tables_url name) PyNone [] w with
  | (Return content, w') =>
      create_table_files srv fuel names (uploaded (table_object name) content w')
  | (Raise e, w') => (Raise e, w')
  | (OutOfFuel, w') => (OutOfFuel, w')
  end.
Proof.
  unfold create_table_files. cbn [for_each]. unfold bind at 1. unfold bind at 1.
  by destruct (create_table_files_loop _ _ _ _ _ _) as [[content|e|] w'].
Qed.

(** X13: whatever the catalog replies, the objects [create_table_files]
    uploads are those of the first schemas of its list, one each and in
    order, and it returns exactly when it has uploaded one for every
    schema; a raise or a loop that runs out of fuel keeps the uploads of
    the schemas before it. *)
Theorem create_table_files_uploads_a_prefix srv fuel names w :
  ∃ new,
    uploads (create_table_files srv fuel names w).2 = uploads w ++ new ∧
    map fst new `prefix_of` map table_object names ∧
    ((create_table_files srv fuel names w).1 = Return tt ↔
     length new = length names).
Proof.
  revert w. induction names as [|name names IH]; intros w.
  - exists []. simpl. by rewrite app_nil_r.
  - rewrite create_table_files_cons.
    pose proof (create_table_files_loop_world srv fuel (tables_url name)
                  PyNone [] w) as [Hup _].
    destruct (create_table_files_loop srv fuel (tables_url name) PyNone [] w)
      as [[content|e|] w']; simpl in Hup.
    + destruct (IH (uploaded (table_object name) content w'))
        as (new & Hnew & [k Hk] & Hret).
      exists ((table_object name, content) :: new). split; [|split].
      * rewrite Hnew. simpl. rewrite Hup. by rewrite <- app_assoc.
      * exists k. simpl. by rewrite Hk.
      * rewrite Hret. simpl. lia.
    + exists []. simpl. rewrite app_nil_r. split; [done|].
      split; [apply prefix_nil|]. split; [done|lia].
    + exists []. simpl. rewrite app_nil_r. split; [done|].
      split; [apply prefix_nil|]. split; [done|lia].
Qed.

(** ** Stage 2: a falsy cursor *)

Lemma create_table_files_loop_falsy_cursor srv fuel u after acc w :
  truthy after = false →
  create_table_files_loop srv fuel u after acc w =
  create_table_files_loop srv fuel u PyNone acc w.
Proof.
  intros Hfalsy. destruct fuel; [done|]. simpl. unfold bind.
  by rewrite (get_data_falsy_cursor _ _ _ _ Hfalsy).
Qed.

Lemma create_table_files_loop_diverges f u :
  table_loop_hits_falsy_cursor f u PyNone →
  ∀ fuel after acc w,
    table_loop_hits_falsy_cursor f u after →
    (create_table_files_loop (stateless f) fuel u after acc w).1 = OutOfFuel.
Proof.
  intros Hstart fuel.
  induction fuel as [|fuel IH]; intros after acc w Hhits; [done|].
  destruct Hhits as [after p c Hreply Hc Hfalsy | after p c Hreply Hc Hlater].
  - rewrite (create_table_files_loop_next _ _ _ _ _ _ p c) by done.
    rewrite create_table_files_loop_falsy_cursor by done.
    by apply IH.
  - rewrite (create_table_files_loop_next _ _ _ _ _ _ p c) by done.
    by apply IH.
Qed.

(** X14: the table loop has the trap of the schema loop: when the reply of
    the catalog depends on the request alone and the listing of a schema
    yields, at some turn, a page whose ['after'] is present and falsy,
    [create_table_files] never gets past that schema, whatever fuel it is
    given: it neither returns nor raises, and uploads nothing for that
    schema or a later one. *)
Theorem create_table_files_loops_forever_on_falsy_cursor f name names fuel w :
  table_loop_hits_falsy_cursor f (tables_url name) PyNone →
  (create_table_files (stateless f) fuel (name :: names) w).1 = OutOfFuel ∧
  uploads (create_table_files (stateless f) fuel (name :: names) w).2 =
    uploads w.
Proof.
  intros Hhits. rewrite create_table_files_cons.
  pose proof (create_table_files_loop_diverges f _ Hhits fuel PyNone [] w Hhits)
    as Hout.
  pose proof (create_table_files_loop_world (stateless f) fuel (tables_url name)
                PyNone [] w) as [Hup _].
  destruct (create_table_files_loop (stateless f) fuel (tables_url name) PyNone [] w)
    as [[content|e|] w']; simpl in *; done.
Qed.

Lemma create_table_files_loops_forever_on_falsy_cursor_witness :
  (create_table_files
     (stateless (λ _, ok (tables_page ["a"] (Some (PyStr "")))))
     7 ("s1" :: ["s2"]) fresh).1 = OutOfFuel ∧
  uploads
    (create_table_files
       (stateless (λ _, ok (tables_page ["a"] (Some (PyStr "")))))
       7 ("s1" :: ["s2"]) fresh).2 = uploads fresh.
Proof.
  apply (create_table_files_loops_forever_on_falsy_cursor
           (λ _, ok (tables_page ["a"] (Some (PyStr "")))) "s1" ["s2"] 7 fresh).
  apply (table_hits_now _ _ PyNone (tables_page ["a"] (Some (PyStr ""))) (PyStr ""));
    reflexivity.
Defined.

(** ** Stage 3 feeds stage 4: repeated records *)

Lemma dag_om_delete_item_covers srv item rs w :
  returns (dag_om.delete_item srv item rs) w (λ _ w',
    ∀ p, p ∈ attempts item → covered (processed_lineage_pairs w') p).
Proof.
  unfold dag_om.delete_item.
  eapply returns_bind; [apply dag_om_downstream_edges_cover|].
  intros rs1 v1 [_ Hcov1]. simpl in *.
  eapply returns_weaken; [apply dag_om_upstream_edges_cover|].
  intros rs2 v2 [Hsub2 Hcov2] p. simpl in *.
  unfold attempts. rewrite elem_of_app. intros [Hp | Hp].
  - eapply covered_mono; [exact Hsub2|by apply Hcov1].
  - by apply Hcov2.
Qed.

Lemma attempts_replicate k item p :
  p ∈ flat_map attempts (replicate k item) → p ∈ attempts item.
Proof.
  induction k as [|k IH]; simpl; [by intros ?%elem_of_nil|].
  rewrite elem_of_app. by intros [?|?]; [|apply IH].
Qed.

Lemma for_each_app_eq {A S} (xs ys : list A) (body : A -> S -> Py S) s w :
  for_each (xs ++ ys) body s w =
  match for_each xs body s w with
  | (Return s', w') => for_each ys body s' w'
  | (Raise e, w') => (Raise e, w')
  | (OutOfFuel, w') => (OutOfFuel, w')
  end.
Proof. by rewrite for_each_app. Qed.

(** X15: stage 3 may write the record of a table several times in a row
    (once per node lacking "vw"); [dag_om.delete_lineage] treats such an
    artifact exactly as the one with a single copy: same rows, same
    requests, same final set. *)
Theorem dag_om_delete_lineage_ignores_repeated_records srv before item k after w :
  dag_om.delete_lineage srv (before ++ replicate (S k) item ++ after) w =
  dag_om.delete_lineage srv (before ++ [item] ++ after) w.
Proof.
  unfold dag_om.delete_lineage.
  rewrite !(for_each_app_eq before).
  destruct (for_each before (dag_om.delete_item srv) [] w) as [[rs| |] w1];
    [|done|done].
  change (replicate (S k) item) with ([item] ++ replicate k item).
  rewrite <- app_assoc, !(for_each_app_eq [item]).
  destruct (for_each [item] (dag_om.delete_item srv) rs w1)
    as [[rs2| |] w2] eqn:Hitem; [|done|done].
  rewrite for_each_app_eq, dag_om_delete_lineage_skip; [done|].
  intros p Hp%(attempts_replicate k).
  destruct (dag_om_delete_item_covers srv item rs w1) as (rs3 & w3 & Hrun & Hcov).
  simpl in Hitem. unfold bind in Hitem. rewrite Hrun in Hitem.
  injection Hitem as <- <-. by apply Hcov.
Qed.

(** ** Stage 3 on a catalog that answers by the request alone *)

Lemma processar_linhagem_app id got rs :
  processar_linhagem id got rs = rs ++ processar_linhagem id got [].
Proof.
  destruct got as [[| |g]|]; try (simpl; by rewrite app_nil_r).
  by rewrite !processar_linhagem_eq.
Qed.

Lemma processar_items_stateless f items rs w :
  returns (for_each items (processar_item (stateless f)) rs) w (λ rs' _,
    rs' = rs ++ flat_map (records_of f) items).
Proof.
  apply (for_each_progress (λ seen rs' _,
    rs' = rs ++ flat_map (records_of f) seen)).
  - intros seen item rs' v ->. unfold returns. rewrite processar_item_eq.
    rewrite flat_map_app. simpl. rewrite app_nil_r.
    assert (records_of f item =
            if eligible item
            then processar_linhagem (entity_id item)
                   (fetched (f (lineage_request item))) []
            else []) as -> by done.
    unfold stateless.
    destruct (eligible item); eexists _, _; (split; [done|]).
    + by rewrite processar_linhagem_app, <- app_assoc.
    + by rewrite !app_nil_r.
  - by rewrite app_nil_r.
Qed.

(** X16: when the reply of the catalog depends on the request alone, the
    artifact of stage 3 is the records of each table put end to end, in the
    order of the objects read and of the tables in them: what a table
    contributes does not depend on the tables before it.  The DAG reads the
    objects whose name ends in [.json], the script every file. *)
Theorem extraction_is_table_by_table f files w :
  returns (dag_om.extract_and_save_lineage (stateless f) files) w (λ rs _,
    rs = flat_map (λ file, flat_map (records_of f) file.2) (json_files files)) ∧
  returns (deletarlinhagem.extract_and_save_lineage (stateless f) files) w (λ rs _,
    rs = flat_map (λ file, flat_map (records_of f) file.2) files).
Proof.
  split.
  - apply (for_each_progress (λ seen rs _,
      rs = flat_map (λ file, flat_map (records_of f) file.2) (json_files seen)));
      [|done].
    intros seen file rs v ->. cbn beta.
    unfold json_files. rewrite List.filter_app, flat_map_app. simpl.
    destruct (endswith file.1 ".json").
    + eapply returns_weaken; [apply processar_items_stateless|].
      intros rs' v' ->. simpl. by rewrite app_nil_r.
    + apply returns_ret. by rewrite app_nil_r.
  - apply (for_each_progress (λ seen rs _,
      rs = flat_map (λ file, flat_map (records_of f) file.2) seen)); [|done].
    intros seen file rs v ->. cbn beta. rewrite flat_map_app. simpl.
    eapply returns_weaken; [apply processar_items_stateless|].
    intros rs' v' ->. simpl. by rewrite app_nil_r.
Qed.

(** ** Stages 3 and 4 together *)

Lemma attempted_elem T other_end edges p :
  p ∈ attempted T other_end edges →
  p.1 = T ∧ truthy p.1 = true ∧ truthy p.2 = true ∧
  ∃ e, e ∈ edges ∧ p.2 = get (other_end e).
Proof.
  unfold attempted. intros (e & He & Hp)%list_elem_of_omap.
  destruct (truthy T && truthy (get (other_end e))) eqn:Hids; [|done].
  injection Hp as <-. simpl.
  apply andb_prop in Hids as [HT HX]. eauto 6.
Qed.

Lemma attempts_row records p :
  p ∈ flat_map attempts records →
  ∃ r, r ∈ records ∧ row_of_record p r.
Proof.
  intros (r & Hr & Hp)%list_elem_of_In%in_flat_map.
  exists r. split; [by apply list_elem_of_In|].
  apply list_elem_of_In in Hp. unfold attempts in Hp.
  apply elem_of_app in Hp as [Hp|Hp];
    apply attempted_elem in Hp as (H1 & H2 & H3 & e & He & Hpe);
    (split; [done|]; split; [done|]; split; [done|]); [left|right]; eauto.
Qed.

(** X17: the two stages composed: whatever the catalog replies during
    either stage, every row that [delete_lineage] returns for the artifact
    of [extract_and_save_lineage] names, as [from_id], a table of an
    eligible type whose graph was served with status 200 and passed the
    filter, and as [to_id] the other end of an edge of that graph; both ids
    are truthy.  This holds in both files. *)
Theorem deletions_concern_filtered_tables_only srv files w :
  returns (dag_om.extract_and_save_lineage srv files) w (λ records _,
    ∀ srv' w',
      returns (dag_om.delete_lineage srv' records) w' (λ rows _,
        Forall (λ row, ∃ file item r,
                  file ∈ files ∧ endswith file.1 ".json" = true ∧
                  item ∈ file.2 ∧ record_from srv item r ∧
                  row_of_record (dag_om.pair_of row) r) rows)) ∧
  returns (deletarlinhagem.extract_and_save_lineage srv files) w (λ records _,
    ∀ srv' w',
      returns (deletarlinhagem.delete_lineage srv' records) w' (λ rows _,
        Forall (λ row, ∃ file item r,
                  file ∈ files ∧ item ∈ file.2 ∧ record_from srv item r ∧
                  row_of_record (deletarlinhagem.pair_of row) r) rows)).
Proof.
  split.
  - eapply returns_weaken; [apply dag_om_extraction_kept|].
    intros records w1 Hrecords srv' w'. simpl in Hrecords.
    eapply returns_weaken; [apply dag_om_rows_sublist|].
    intros rows w2 Hrows. simpl in Hrows.
    apply Forall_forall. intros row Hrow.
    assert (dag_om.pair_of row ∈ flat_map attempts records) as Hp.
    { eapply elem_of_sublist; [|exact Hrows]. by apply list_elem_of_fmap_2. }
    apply attempts_row in Hp as (r & Hr & Hp).
    rewrite Forall_forall in Hrecords.
    destruct (Hrecords r Hr) as (file & item & Hfile & Hjson & Hitem & Hfrom).
    by exists file, item, r.
  - eapply returns_weaken; [apply script_extraction_kept|].
    intros records w1 Hrecords srv' w'. simpl in Hrecords.
    eapply returns_weaken; [apply script_delete_lineage_pairs|].
    intros rows w2 Hrows. simpl in Hrows.
    apply Forall_forall. intros row Hrow.
    assert (deletarlinhagem.pair_of row ∈ flat_map attempts records) as Hp.
    { rewrite <- Hrows. by apply list_elem_of_fmap_2. }
    apply attempts_row in Hp as (r & Hr & Hp).
    rewrite Forall_forall in Hrecords.
    destruct (Hrecords r Hr) as (file & item & Hfile & Hitem & Hfrom).
    by exists file, item, r.
Qed.
